(** * sgwtool: the Sector Gateway configuration tool

    A shallow embedding of [src/sgwtool/cli.py]: the two configuration
    codecs (FRR and nftables), the table printer and the privilege,
    pre-flight and subprocess guards, with the properties of the
    specification stated on top of them.

    Python values are embedded as follows.
    - [str] is a list of Unicode code points ([N]); [len], [strip],
      [split], [splitlines], [startswith], [in], [join], [ljust] follow
      CPython's definitions on [str].
    - A raised exception is the [Raise] case of [Result]; [sys.exit(n)] is
      the exception [SystemExit n].
    - Methods that touch the process environment run in the monad [M],
      a state-and-exception monad over [World].
    - The methods [__die__], [__ensure_root__], [__pre_checks__],
      [__format_row__], [__print_table__] and [__run__] keep their names
      without the underscores; a class is a module, its object the record
      [Tool]. *)

From Stdlib Require Import Strings.String Strings.Ascii.
From Stdlib Require Import NArith ZArith Lia.
From stdpp Require Import base option list gmap.

Local Open Scope N_scope.

(** ** Python strings *)

Definition char : Type := N.
Definition str : Type := list char.

(** A string literal of the source, as code points; the literals of the
    source are ASCII. *)
Definition lit (s : String.string) : str :=
  map Ascii.N_of_ascii (String.list_ascii_of_string s).
Arguments lit s%_string.

Definition LF : char := 10.
Definition CR : char := 13.
Definition SPACE : char := 32.
Definition DASH : char := 45.
Definition DQUOTE : char := 34.

(** [str.isspace] on one code point: the characters [strip()] and
    [split()] treat as whitespace. *)
Definition isspace (c : char) : bool :=
  ((9 <=? c) && (c <=? 13)) || ((28 <=? c) && (c <=? 32))
  || (c =? 133) || (c =? 160) || (c =? 5760)
  || ((8192 <=? c) && (c <=? 8202))
  || (c =? 8232) || (c =? 8233) || (c =? 8239) || (c =? 8287) || (c =? 12288).

(** The line boundaries of [str.splitlines]. *)
Definition islinebreak (c : char) : bool :=
  ((10 <=? c) && (c <=? 13)) || ((28 <=? c) && (c <=? 30))
  || (c =? 133) || (c =? 8232) || (c =? 8233).

Local Close Scope N_scope.

Definition len (s : str) : nat := length s.

(** [s.lstrip()], [s.rstrip()], [s.strip()] *)
Fixpoint lstrip (s : str) : str :=
  match s with
  | c :: s' => if isspace c then lstrip s' else s
  | [] => []
  end.

Fixpoint rstrip (s : str) : str :=
  match s with
  | [] => []
  | c :: s' =>
      match rstrip s' with
      | [] => if isspace c then [] else [c]
      | r => c :: r
      end
  end.

Definition strip (s : str) : str := rstrip (lstrip s).

(** [s.startswith(p)] *)
Fixpoint startswith (s p : str) {struct p} : bool :=
  match p, s with
  | [], _ => true
  | _ :: _, [] => false
  | a :: p', c :: s' => if N.eqb a c then startswith s' p' else false
  end.

(** [sub in s] *)
Fixpoint contains (s sub : str) : bool :=
  startswith s sub ||
  match s with
  | [] => false
  | _ :: s' => contains s' sub
  end.

(** [sep.join(parts)] *)
Fixpoint join (sep : str) (parts : list str) : str :=
  match parts with
  | [] => []
  | [p] => p
  | p :: rest => p ++ sep ++ join sep rest
  end.

(** [s.split()]: the maximal runs of non-whitespace characters.
    [cur] is the run being read. *)
Fixpoint split_from (cur : str) (s : str) : list str :=
  match s with
  | [] => match cur with [] => [] | _ => [cur] end
  | c :: s' =>
      if isspace c
      then match cur with
           | [] => split_from [] s'
           | _ => cur :: split_from [] s'
           end
      else split_from (cur ++ [c]) s'
  end.

Definition split (s : str) : list str := split_from [] s.

(** [s.splitlines()]: a line ends at a line boundary, CR LF counts as one
    boundary, and no empty line follows a final boundary. *)
Fixpoint splitlines_from (cur : str) (s : str) : list str :=
  match s with
  | [] => match cur with [] => [] | _ => [cur] end
  | c :: s' =>
      if islinebreak c
      then cur ::
           match s' with
           | c' :: s'' =>
               if N.eqb c CR && N.eqb c' LF
               then splitlines_from [] s''
               else splitlines_from [] s'
           | [] => []
           end
      else splitlines_from (cur ++ [c]) s'
  end.

Definition splitlines (s : str) : list str := splitlines_from [] s.

(** [s.ljust(width)] *)
Definition ljust (s : str) (width : nat) : str :=
  s ++ replicate (width - len s) SPACE.

(** ["-" * w] *)
Definition dashes (w : nat) : str := replicate w DASH.

(** ** Exceptions and results *)

Inductive exn : Type :=
| SystemExit (code : Z)   (* sys.exit(code) *)
| IndexError              (* a list index out of range *)
| OSError                 (* a failed operating-system call *)
| UnicodeError.           (* text the encoding of the locale cannot write *)

Inductive Result (A : Type) : Type :=
| Ok (a : A)
| Raise (e : exn).
Arguments Ok {A} a.
Arguments Raise {A} e.

#[global] Instance Result_ret : MRet Result := fun A a => Ok a.
#[global] Instance Result_bind : MBind Result := fun A B k r =>
  match r with
  | Ok a => k a
  | Raise e => Raise e
  end.

(** [l[i]] with Python's negative indices. *)
Definition getitem {A : Type} (l : list A) (i : Z) : Result A :=
  let n := Z.of_nat (length l) in
  let j := if (i <? 0)%Z then (i + n)%Z else i in
  if ((j <? 0) || (n <=? j))%Z then Raise IndexError
  else match l !! Z.to_nat j with
       | Some x => Ok x
       | None => Raise IndexError
       end.

(** [l[i] = x] for an index [i] of [enumerate]. *)
Definition setitem {A : Type} (l : list A) (i : nat) (x : A) : Result (list A) :=
  if decide (i < length l) then Ok (<[i := x]> l) else Raise IndexError.

(** ** The process environment *)

(** A [pathlib.Path], absolute, as its components below the root. *)
Definition Path : Type := list str.

(** [str(path)] *)
Definition path_str (p : Path) : str := lit "/" ++ join (lit "/") p.

(** [path.parent]; the root is its own parent. *)
Definition parent (p : Path) : Path := removelast p.

(** The directories [mkdir(parents=True)] makes sure of: [p] and every
    ancestor of it below the root. *)
Definition lineage (p : Path) : list Path :=
  map (fun n => take n p) (seq 1 (length p)).

(** The operating system as far as the tool reaches it: the effective
    user, the file system, the two output streams, the encoding of the
    locale and the service manager.  The file system is kept as the regular
    files that hold text, with their text, and the directories named so far;
    a path with a file or a directory below it is a directory too, as on
    any file system, where a file lies in directories only.  (A state that
    gives a text to such a path stands for no file system; the calls are
    defined there all the same, so that no statement needs to exclude it.)
    A file whose bytes are no text in the encoding of the locale, on which
    [read_text] raises [UnicodeDecodeError], is not among the files of the
    model.  The calls raise where the system refuses them: [mkdir] where a
    regular file stands in the way, [write_text] on a directory, where the
    directory to write in is missing, or where the text cannot be encoded,
    [read_text] on a path that is no regular file, and a command that cannot
    be started.  The process is allowed what it asks for (it runs as root
    where it gets this far), and the device has room for what is written.
    [read_text] turns CR and CR LF into LF; [splitlines] ends a line at each
    of the three, so the lines read are the same and the translation is left
    out. *)
Record World : Type := mkWorld {
  euid : Z;                        (* os.geteuid() *)
  files : gmap Path str;           (* regular files and their text *)
  dirs : gset Path;                (* directories below the root *)
  stdout : list str;               (* what print wrote, one entry per call *)
  stderr : list str;               (* likewise for file=sys.stderr *)
  spawned : list (list str);       (* commands handed to subprocess.run *)
  returncode : list str -> option Z; (* exit status of a command; None when
                                        it cannot be started *)
  encodable : char -> bool         (* the code points the encoding of the
                                      locale can write *)
}.

Definition set_files (f : gmap Path str) (w : World) : World :=
  mkWorld (euid w) f (dirs w) (stdout w) (stderr w) (spawned w) (returncode w)
    (encodable w).
Definition set_dirs (d : gset Path) (w : World) : World :=
  mkWorld (euid w) (files w) d (stdout w) (stderr w) (spawned w) (returncode w)
    (encodable w).
Definition set_stdout (o : list str) (w : World) : World :=
  mkWorld (euid w) (files w) (dirs w) o (stderr w) (spawned w) (returncode w)
    (encodable w).
Definition set_stderr (e : list str) (w : World) : World :=
  mkWorld (euid w) (files w) (dirs w) (stdout w) e (spawned w) (returncode w)
    (encodable w).
Definition set_spawned (s : list (list str)) (w : World) : World :=
  mkWorld (euid w) (files w) (dirs w) (stdout w) (stderr w) s (returncode w)
    (encodable w).

(** State and exceptions: a computation maps the world to a result and the
    world it leaves behind. *)
Definition M (A : Type) : Type := World -> Result A * World.

#[global] Instance M_ret : MRet M := fun A a w => (Ok a, w).
#[global] Instance M_bind : MBind M := fun A B k m w =>
  match m w with
  | (Ok a, w') => k a w'
  | (Raise e, w') => (Raise e, w')
  end.

Definition lift {A : Type} (r : Result A) : M A := fun w => (r, w).

(** [print(s)] and [print(s, file=sys.stderr)] *)
Definition print (s : str) : M unit :=
  fun w => (Ok tt, set_stdout (stdout w ++ [s]) w).
Definition eprint (s : str) : M unit :=
  fun w => (Ok tt, set_stderr (stderr w ++ [s]) w).

(** [sys.exit(code)] *)
Definition sys_exit {A : Type} (code : Z) : M A :=
  fun w => (Raise (SystemExit code), w).

(** [os.geteuid()] *)
Definition geteuid : M Z := fun w => (Ok (euid w), w).

(** The paths the file system holds. *)
Definition entries (w : World) : gset Path := dom (files w) ∪ dirs w.

(** [q] lies above [p]: it is a proper prefix of it. *)
Definition above (q p : Path) : Prop := q <> p /\ q `prefix_of` p.

(** [q] is a directory: the root, a directory named so far, or a path with
    an entry below it. *)
Definition is_dir (w : World) (q : Path) : bool :=
  bool_decide (q = [] \/ q ∈ dirs w \/ set_Exists (above q) (entries w)).

(** [q] is a regular file. *)
Definition is_file (w : World) (q : Path) : bool :=
  bool_decide (is_Some (files w !! q)) && negb (is_dir w q).

(** A regular file stands where [p] or a directory above it should be. *)
Definition blocked (w : World) (p : Path) : bool := existsb (is_file w) (lineage p).

(** [path.exists()]: a file or a directory. *)
Definition path_exists (p : Path) : M bool :=
  fun w => (Ok (bool_decide (is_Some (files w !! p)) || is_dir w p), w).

(** [path.mkdir(parents=True, exist_ok=True)]: [os.mkdir] fails with
    [FileExistsError] where the path is a regular file and with
    [NotADirectoryError] where one above it is, and then nothing is made;
    both are [OSError]. *)
Definition mkdir_parents (p : Path) : M unit :=
  fun w =>
    if blocked w p
    then (Raise OSError, w)
    else (Ok tt, set_dirs (dirs w ∪ list_to_set (lineage p)) w).

(** [path.write_text(text)]: [open] in mode [w] fails on a directory
    ([IsADirectoryError]) and where the parent is no directory
    ([FileNotFoundError], [NotADirectoryError]); it empties the file, and
    then text that cannot be encoded makes [write] raise
    [UnicodeEncodeError]; otherwise the whole file is replaced. *)
Definition write_text (p : Path) (text : str) : M unit :=
  fun w =>
    if is_dir w p then (Raise OSError, w)
    else if negb (is_dir w (parent p)) then (Raise OSError, w)
    else if forallb (encodable w) text
         then (Ok tt, set_files (<[p := text]> (files w)) w)
         else (Raise UnicodeError, set_files (<[p := []]> (files w)) w).

(** [path.read_text()] *)
Definition read_text (p : Path) : M str :=
  fun w => match files w !! p with
           | Some text => (Ok text, w)
           | None => (Raise OSError, w)
           end.

(** [subprocess.run(cmd, check=True)] as [try] sees it: the return code,
    where [CalledProcessError] is a code other than zero. *)
Definition subprocess_run (cmd : list str) : M Z :=
  fun w => match returncode w cmd with
           | Some rc => (Ok rc, set_spawned (spawned w ++ [cmd]) w)
           | None => (Raise OSError, set_spawned (spawned w ++ [cmd]) w)
           end.

(** ** class SectorGatewayTool *)

(** A tool object: its one attribute is the configuration path. *)
Record Tool : Type := mkTool { config : Path }.

(** [__die__]: print the message to stderr and exit with code 1. *)
Definition die (msg : str) : M unit :=
  eprint (lit "ERROR: " ++ msg) ;;
  sys_exit 1.

(** [__ensure_root__] *)
Definition ensure_root : M unit :=
  uid ← geteuid;
  if negb (uid =? 0)%Z
  then die (lit "This command must be run as root")
  else mret tt.

(** [__init__] *)
Definition init (config : Path) : M Tool :=
  ensure_root ;;
  mret (mkTool config).

(** [__pre_checks__] *)
Definition pre_checks (self : Tool) : M unit :=
  mkdir_parents (parent (config self)) ;;
  present ← path_exists (config self);
  if negb present
  then die (path_str (config self) ++ lit " does not exist")
  else mret tt.

(** The generator of [__format_row__]:
    [cell.ljust(col_widths[i]) for i, cell in enumerate(row)], from index [i]. *)
Fixpoint justified (col_widths : list nat) (i : nat) (row : list str)
  : Result (list str) :=
  match row with
  | [] => Ok []
  | cell :: row' =>
      w ← getitem col_widths (Z.of_nat i);
      rest ← justified col_widths (S i) row';
      Ok (ljust cell w :: rest)
  end.

(** [__format_row__] *)
Definition format_row (col_widths : list nat) (row : list str) : Result str :=
  cells ← justified col_widths 0 row;
  Ok (join (lit "  ") cells).

(** The inner loop of [__print_table__] over one row, from index [i]:
    [col_widths[i] = max(col_widths[i], len(cell))]. *)
Fixpoint widen (col_widths : list nat) (i : nat) (row : list str)
  : Result (list nat) :=
  match row with
  | [] => Ok col_widths
  | cell :: row' =>
      w ← getitem col_widths (Z.of_nat i);
      col_widths' ← setitem col_widths i (Nat.max w (len cell));
      widen col_widths' (S i) row'
  end.

(** The outer loop: [for row in rows]. *)
Fixpoint widen_all (col_widths : list nat) (rows : list (list str))
  : Result (list nat) :=
  match rows with
  | [] => Ok col_widths
  | row :: rows' =>
      col_widths' ← widen col_widths 0 row;
      widen_all col_widths' rows'
  end.

(** The last loop: [for row in rows: print(self.__format_row__(...))]. *)
Fixpoint print_rows (col_widths : list nat) (rows : list (list str)) : M unit :=
  match rows with
  | [] => mret tt
  | row :: rows' =>
      line ← lift (format_row col_widths row);
      print line ;;
      print_rows col_widths rows'
  end.

(** [__print_table__] *)
Definition print_table (headers : list str) (rows : list (list str)) : M unit :=
  col_widths ← lift (widen_all (map len headers) rows);
  line ← lift (format_row col_widths headers);
  print line ;;
  line ← lift (format_row col_widths (map dashes col_widths));
  print line ;;
  print_rows col_widths rows.

(** [__run__] *)
Definition run (cmd : list str) : M unit :=
  rc ← subprocess_run cmd;
  if negb (rc =? 0)%Z
  then die (lit "Command failed: " ++ join (lit " ") cmd)
  else mret tt.

(** ** class FRR *)

Record FrrSetArgs : Type := mkFrrSetArgs {
  sector_addresses : list str;
  backplane_assigned_addr : str;
  backplane_gw_ip : str
}.

Module FRR.

(** The [lines] of [set]. *)
Definition lines (args : FrrSetArgs) : list str :=
  [ lit "frr defaults traditional";
    lit "log syslog warning";
    lit "ip forwarding";
    lit "!";
    lit "interface eth0" ]
  ++ map (fun addr => lit " ip address " ++ addr) (sector_addresses args)
  ++ [ lit " no shutdown";
       lit "!";
       lit "interface eth1";
       lit " ip address " ++ backplane_assigned_addr args;
       lit " no shutdown";
       lit "!";
       lit "ip route 0.0.0.0/0 " ++ backplane_gw_ip args;
       lit "!";
       lit "end";
       [] ].

(** The text [set] writes: ["\n".join(lines)]. *)
Definition render (args : FrrSetArgs) : str := join [LF] (lines args).

Definition set (self : Tool) (args : FrrSetArgs) : M unit :=
  write_text (config self) (render args) ;;
  print (lit "Wrote FRR configuration to " ++ path_str (config self)).

(** [ip_type] of [get]: the literals sector and backplane, or the empty string. *)
Inductive IpType : Type := sector | backplane | unset.

(** The local variables of [get] that the loop over the lines updates. *)
Record Scan : Type := mkScan {
  sector_addrs : list str;     (* sector_addresses *)
  backplane_addr : str;
  backplane_gateway : str;
  ip_type : IpType
}.

Definition start : Scan := mkScan [] ([]) ([]) unset.

(** One iteration of the loop of [get]. *)
Definition scan_line (st : Scan) (line : str) : Result Scan :=
  let config_line := strip line in
  let st :=
    if startswith config_line (lit "interface")
    then mkScan (sector_addrs st) (backplane_addr st) (backplane_gateway st)
           (if contains config_line (lit "eth0") then sector else backplane)
    else st in
  if startswith config_line (lit "ip address") then
    addr ← getitem (split config_line) 2;
    match ip_type st with
    | sector =>
        Ok (mkScan (sector_addrs st ++ [addr]) (backplane_addr st)
              (backplane_gateway st) (ip_type st))
    | _ =>
        Ok (mkScan (sector_addrs st) addr (backplane_gateway st) unset)
    end
  else if startswith config_line (lit "ip route 0.0.0.0/0") then
    gw ← getitem (split config_line) (-1);
    Ok (mkScan (sector_addrs st) (backplane_addr st) gw (ip_type st))
  else Ok st.

Fixpoint scan (st : Scan) (text_lines : list str) : Result Scan :=
  match text_lines with
  | [] => Ok st
  | line :: rest =>
      st' ← scan_line st line;
      scan st' rest
  end.

(** The loop of [get] over [text.splitlines()]. *)
Definition parse (text : str) : Result Scan := scan start (splitlines text).

(** The [rows] of [get]. *)
Definition rows (self : Tool) (st : Scan) : list (list str) :=
  [ [lit "Sector Gateways"; join (lit ", ") (sector_addrs st)];
    [lit "Backplane Address"; backplane_addr st];
    [lit "Backplane Gateway"; backplane_gateway st];
    [lit "Config Path"; path_str (config self)] ].

Definition get (self : Tool) : M unit :=
  pre_checks self ;;
  text ← read_text (config self);
  st ← lift (parse text);
  print_table [lit "Field"; lit "Value"] (rows self st).

Definition restart (self : Tool) : M unit :=
  pre_checks self ;;
  run [lit "systemctl"; lit "restart"; lit "frr"] ;;
  print (lit "FRR restarted successfully").

End FRR.

(** ** class NFTables *)

Record NFTablesSetArgs : Type := mkNFTablesSetArgs {
  primary_sector_ip : str;
  backplane_network : str
}.

Module NFTables.

(** The [lines] of [set]. *)
Definition lines (args : NFTablesSetArgs) : list str :=
  [ lit "table ip nat {";
    lit "  chain prerouting {";
    lit "    type nat hook prerouting priority -100;";
    lit "    iif " ++ [DQUOTE] ++ lit "eth1" ++ [DQUOTE] ++ lit " ip daddr " ++ backplane_network args
      ++ lit " dnat to " ++ primary_sector_ip args;
    lit "    iif " ++ [DQUOTE] ++ lit "eth0" ++ [DQUOTE] ++ lit " ip daddr " ++ backplane_network args ++ lit " drop";
    lit "  }";
    [];
    lit "  chain postrouting {";
    lit "    type nat hook postrouting priority 100;";
    lit "    oif " ++ [DQUOTE] ++ lit "eth1" ++ [DQUOTE] ++ lit " masquerade";
    lit "  }";
    lit "}";
    [] ].

(** The text [set] writes: ["\n".join(lines)]. *)
Definition render (args : NFTablesSetArgs) : str := join [LF] (lines args).

Definition set (self : Tool) (args : NFTablesSetArgs) : M unit :=
  write_text (config self) (render args) ;;
  print (lit "Wrote nftables configuration to " ++ path_str (config self)).

(** The local variables of [get] that the loop over the lines updates. *)
Record Scan : Type := mkScan {
  prerouting : str;
  postrouting : str
}.

Definition start : Scan := mkScan ([]) ([]).

(** One iteration of the loop of [get]. *)
Definition scan_line (st : Scan) (line : str) : Scan :=
  let config_line := strip line in
  if startswith config_line (lit "iif") then
    mkScan config_line (postrouting st)
  else if startswith config_line (lit "oif") then
    mkScan (prerouting st) config_line
  else st.

(** The loop of [get] over [text.splitlines()]. *)
Definition parse (text : str) : Scan :=
  fold_left scan_line (splitlines text) start.

(** The [rows] of [get]. *)
Definition rows (self : Tool) (st : Scan) : list (list str) :=
  [ [lit "Prerouting Rule"; prerouting st];
    [lit "Postrouting Rule"; postrouting st];
    [lit "Config Path"; path_str (config self)] ].

Definition get (self : Tool) : M unit :=
  pre_checks self ;;
  text ← read_text (config self);
  print_table [lit "Field"; lit "Value"] (rows self (parse text)).

Definition restart (self : Tool) : M unit :=
  pre_checks self ;;
  run [lit "systemctl"; lit "restart"; lit "nftables"] ;;
  print (lit "nftables restarted successfully").

End NFTables.

(** ** main *)

(** The command line as [argparse] hands it over: the tool and the action,
    with the arguments of [set]. *)
Inductive Command : Type :=
| frr_set (args : FrrSetArgs)
| frr_get
| frr_restart
| nftables_set (args : NFTablesSetArgs)
| nftables_get
| nftables_restart.

Definition frr_conf : Path := [lit "etc"; lit "frr"; lit "frr.conf"].
Definition nftables_conf : Path := [lit "etc"; lit "nftables.conf"].

(** [main]: both tools are built first, then [args.func(args)] runs. *)
Definition main (args : Command) : M unit :=
  frr_tool ← init frr_conf;
  nftables_tool ← init nftables_conf;
  match args with
  | frr_set a => FRR.set frr_tool a
  | frr_get => FRR.get frr_tool
  | frr_restart => FRR.restart frr_tool
  | nftables_set a => NFTables.set nftables_tool a
  | nftables_get => NFTables.get nftables_tool
  | nftables_restart => NFTables.restart nftables_tool
  end.

(** * Notions used in the statements *)

(** ** Strings *)

(** A string with no line boundary in it. *)
Definition one_line (s : str) : Prop := Forall (fun c => islinebreak c = false) s.

(** A string with no whitespace in it. *)
Definition spaceless (s : str) : Prop := Forall (fun c => isspace c = false) s.

(** A whitespace-free, non-empty string. *)
Definition token (s : str) : Prop := s <> [] /\ spaceless s.

(** ** The firewall rules *)

(** The drop rule of the prerouting chain and the rule of the postrouting
    chain, as [set] writes them, without their indentation. *)
Definition drop_rule (network : str) : str :=
  lit "iif " ++ [DQUOTE] ++ lit "eth0" ++ [DQUOTE] ++ lit " ip daddr "
    ++ network ++ lit " drop".
Definition masquerade_rule : str :=
  lit "oif " ++ [DQUOTE] ++ lit "eth1" ++ [DQUOTE] ++ lit " masquerade".

(** ** The table *)

(** What the inner loop of [__print_table__] leaves of the widths after
    one row, when the row is not longer than the widths. *)
Fixpoint grow (col_widths : list nat) (row : list str) : list nat :=
  match col_widths, row with
  | w :: ws, cell :: row' => Nat.max w (len cell) :: grow ws row'
  | _, _ => col_widths
  end.

(** The table as the specification words it: the width of a column is the
    maximum of its header's width and the widths of all cells in it; the
    header row, a row of dashes as wide as each column, then the data rows,
    every cell left-justified to the width of its column and the columns
    two spaces apart. *)
Definition column_width (headers : list str) (rows : list (list str)) (j : nat) : nat :=
  max_list (len (nth j headers []) :: map (fun row => len (nth j row [])) rows).

Definition column_widths (headers : list str) (rows : list (list str)) : list nat :=
  map (column_width headers rows) (seq 0 (length headers)).

Definition table (headers : list str) (rows : list (list str)) : list str :=
  let widths := column_widths headers rows in
  let line (row : list str) := join (lit "  ") (zip_with ljust row widths) in
  line headers :: join (lit "  ") (map dashes widths) :: map line rows.

(** ** The guards *)


(** What a [restart] method reports, given the exit status [rc] of the
    command [systemctl restart service]: the command is run; a failure names
    it on stderr, its words joined by spaces, and exits with code 1; a
    success prints the confirmation [started]. *)
Definition restart_reports (restart : Tool -> M unit) (service started : str)
    (self : Tool) (w : World) : Prop :=
  let cmd := [lit "systemctl"; lit "restart"; service] in
  forall rc : Z,
    returncode w cmd = Some rc ->
    let out := restart self w in
    spawned out.2 = spawned w ++ [cmd]
    /\ (rc <> 0%Z ->
          out.1 = Raise (SystemExit 1)
          /\ stderr out.2
             = stderr w ++ [lit "ERROR: " ++ lit "Command failed: " ++ join (lit " ") cmd]
          /\ stdout out.2 = stdout w)
    /\ (rc = 0%Z ->
          out.1 = Ok tt
          /\ stdout out.2 = stdout w ++ [started]
          /\ stderr out.2 = stderr w).

(** Every address line of a text carries an address: a line that, stripped,
    starts with [ip address] has at least three words. *)
Definition address_lines_complete (text : str) : Prop :=
  Forall (fun line =>
            startswith (strip line) (lit "ip address") = true ->
            3 <= length (split (strip line)))
    (splitlines text).

(** ** The scans *)

(** The last of the lines that start with [p], the empty string when there
    is none. *)
Definition last_starting (p : str) (ls : list str) : str :=
  List.last (List.filter (fun l => startswith l p) ls) [].

(** An address line without an address: stripped, it starts with
    [ip address] and has fewer than three words. *)
Definition address_line_incomplete (line : str) : Prop :=
  startswith (strip line) (lit "ip address") = true
  /\ length (split (strip line)) < 3.

(** The gateway a default route line names: its last word. *)
Definition route_gateway (line : str) : str := List.last (split line) [].

(** ** The width of a table *)

(** The length of a line of a table with the given column widths: the
    columns and the two spaces between neighbours. *)
Definition line_width (widths : list nat) : nat :=
  sum_list widths + 2 * (length widths - 1).

(** ** The file system *)

(** [write_text] of [text] to [p] goes through: [p] is no directory, the
    path above it is one, and the encoding of the locale can write the
    text. *)
Definition writable (w : World) (p : Path) (text : str) : Prop :=
  is_dir w p = false
  /\ is_dir w (parent p) = true
  /\ forallb (encodable w) text = true.

(** ** The pre-flight check *)

(** The world after the directories of [__pre_checks__] are made. *)
Definition with_parents (self : Tool) (w : World) : World :=
  set_dirs (dirs w ∪ list_to_set (lineage (parent (config self)))) w.

(** ** What an operation leaves alone *)

(** The computation [m] leaves the part [f] of the world as it was, however
    it ends. *)
Definition keeps {X A : Type} (f : World -> X) (m : M A) : Prop :=
  forall w, f (m w).2 = f w.

(** ** Sample inputs

    The arguments of the test suite and small process states, for the
    examples below. *)

Definition sample_frr_args : FrrSetArgs :=
  mkFrrSetArgs [lit "10.1.1.1/24"; lit "10.1.2.1/24"]
    (lit "192.168.1.100/24") (lit "192.168.1.1").

Definition sample_nft_args : NFTablesSetArgs :=
  mkNFTablesSetArgs (lit "10.1.1.1") (lit "192.168.1.0/24").

(** The configuration that [test_get] reads. *)
Definition sample_frr_config : str :=
  join [LF]
    [ lit "frr defaults traditional"; lit "log syslog warning"; lit "ip forwarding";
      lit "!"; lit "interface eth0"; lit " ip address 10.1.1.1/24";
      lit " ip address 10.1.2.1/24"; lit " no shutdown"; lit "!";
      lit "interface eth1"; lit " ip address 192.168.1.100/24"; lit " no shutdown";
      lit "!"; lit "ip route 0.0.0.0/0 192.168.1.1"; lit "!";
      lit "hostname testhost"; lit "end"; [] ].

(** What UTF-8 encodes: every code point but the surrogates. *)
Definition utf8 (c : char) : bool :=
  ((c <? 55296) || (57343 <? c))%N && (c <=? 1114111)%N.

(** A process of the given user on a file system with the given files, where
    every command exits with [rc]. *)
Definition sample_world (uid : Z) (fs : gmap Path str) (rc : Z) : World :=
  mkWorld uid fs ∅ [] [] [] (fun _ => Some rc) utf8.

(** A root process on a file system with the given files and directories,
    where no command can be started. *)
Definition bare_world (fs : gmap Path str) (ds : gset Path) : World :=
  mkWorld 0 fs ds [] [] [] (fun _ => None) utf8.

(** * Properties *)

(** ** Strings *)

Lemma islinebreak_isspace c : islinebreak c = true -> isspace c = true.
Proof.
  unfold islinebreak, isspace.
  rewrite !orb_true_iff, !andb_true_iff, !N.leb_le, !N.eqb_eq.
  lia.
Qed.

Lemma spaceless_one_line s : spaceless s -> one_line s.
Proof.
  intros H. eapply Forall_impl; [exact H|]. intros c Hc. simpl in *.
  destruct (islinebreak c) eqn:E; [|done].
  apply islinebreak_isspace in E. congruence.
Qed.

Lemma startswith_app s p : startswith (p ++ s) p = true.
Proof. induction p as [|a p IH]; simpl; [done|]. by rewrite N.eqb_refl. Qed.

Lemma startswith_spec s p : startswith s p = true <-> exists t, s = p ++ t.
Proof.
  split.
  - revert s. induction p as [|a p IH]; intros s H.
    + by exists s.
    + destruct s as [|c s]; simpl in H; [done|].
      destruct (N.eqb_spec a c) as [->|]; [|done].
      destruct (IH _ H) as [t ->]. by exists t.
  - intros [t ->]. apply startswith_app.
Qed.

Lemma contains_unfold s sub :
  contains s sub =
  startswith s sub || match s with [] => false | _ :: s' => contains s' sub end.
Proof. by destruct s. Qed.

Lemma contains_app a sub b : contains (a ++ sub ++ b) sub = true.
Proof.
  induction a as [|c a IH].
  - rewrite contains_unfold. simpl. by rewrite startswith_app.
  - rewrite contains_unfold. simpl. rewrite IH. apply orb_true_r.
Qed.

Lemma contains_spec s sub :
  contains s sub = true <-> exists a b, s = a ++ sub ++ b.
Proof.
  split.
  - induction s as [|c s IH]; simpl; rewrite orb_true_iff.
    + intros [H|H]; [|done]. apply startswith_spec in H as [t ->]. by exists [], t.
    + intros [H|H].
      * apply startswith_spec in H as [t ->]. by exists [], t.
      * destruct (IH H) as (a & b & ->). by exists (c :: a), b.
  - intros (a & b & ->). apply contains_app.
Qed.

Lemma join_app sep xs ys :
  xs <> [] -> ys <> [] -> join sep (xs ++ ys) = join sep xs ++ sep ++ join sep ys.
Proof.
  intros Hxs Hys. induction xs as [|x xs IH]; [done|].
  destruct xs as [|x' xs].
  - simpl. by destruct ys.
  - change (join sep ((x :: x' :: xs) ++ ys))
      with (x ++ sep ++ join sep ((x' :: xs) ++ ys)).
    rewrite IH by done. change (join sep (x :: x' :: xs))
      with (x ++ sep ++ join sep (x' :: xs)).
    by rewrite <- !app_assoc.
Qed.

Lemma rstrip_app s t : rstrip t <> [] -> rstrip (s ++ t) = s ++ rstrip t.
Proof.
  intros Ht. induction s as [|c s IH]; simpl; [done|].
  rewrite IH. destruct (s ++ rstrip t) eqn:E; [|done].
  apply app_eq_nil in E as [_ E]. done.
Qed.

Lemma rstrip_spaceless s : spaceless s -> rstrip s = s.
Proof.
  induction 1 as [|c s Hc _ IH]; simpl; [done|].
  rewrite IH, Hc. by destruct s.
Qed.

Lemma rstrip_app_token s t : token t -> rstrip (s ++ t) = s ++ t.
Proof.
  intros [Hne Ht]. rewrite rstrip_app; rewrite rstrip_spaceless; done.
Qed.

Lemma split_from_spaceless cur t rest :
  spaceless t -> split_from cur (t ++ rest) = split_from (cur ++ t) rest.
Proof.
  intros Ht. revert cur. induction Ht as [|c t Hc _ IH]; intros cur; simpl.
  - by rewrite app_nil_r.
  - rewrite Hc, IH. by rewrite <- app_assoc.
Qed.

Lemma split_from_token cur t :
  token t -> split_from cur t = [cur ++ t].
Proof.
  intros [Hne Ht]. rewrite <- (app_nil_r t) at 1.
  rewrite split_from_spaceless by done. simpl.
  destruct (cur ++ t) eqn:E; [|done].
  apply app_eq_nil in E as [_ E]. done.
Qed.

(** A line boundary [LF] closes the line being read, whatever stands
    before it. *)
Lemma splitlines_from_LF s : forall cur rest,
  exists ls, splitlines_from cur (s ++ LF :: rest) = ls ++ splitlines_from [] rest.
Proof.
  induction s as [s IH] using (induction_ltof1 _ (@length char)).
  unfold ltof in IH. intros cur rest. destruct s as [|c s]; simpl.
  - exists [cur]. by destruct rest.
  - destruct (islinebreak c).
    + destruct s as [|c' s]; simpl.
      * destruct (N.eqb c CR); simpl.
        -- by exists [cur].
        -- exists [cur; []]. by destruct rest.
      * destruct (N.eqb c CR && N.eqb c' LF).
        -- destruct (IH s ltac:(simpl; lia) [] rest) as [ls ->]. by exists (cur :: ls).
        -- destruct (IH (c' :: s) ltac:(simpl; lia) [] rest) as [ls E].
           simpl in E. rewrite E. by exists (cur :: ls).
    + destruct (IH s ltac:(simpl; lia) (cur ++ [c]) rest) as [ls ->]. by exists ls.
Qed.

Lemma splitlines_from_one_line l : forall cur rest,
  one_line l ->
  splitlines_from cur (l ++ LF :: rest) = (cur ++ l) :: splitlines_from [] rest.
Proof.
  induction l as [|c l IH]; intros cur rest Hl; simpl.
  - rewrite app_nil_r. by destruct rest.
  - inversion Hl as [|? ? Hc Hl']; subst. rewrite Hc, IH by done.
    by rewrite <- app_assoc.
Qed.

(** A decision procedure for [one_line], for the literals of the source. *)
Lemma one_line_checked s :
  forallb (fun c => negb (islinebreak c)) s = true -> one_line s.
Proof.
  intros H. apply Forall_forall. intros c Hc.
  rewrite forallb_forall in H. apply list_elem_of_In in Hc.
  specialize (H c Hc). by destruct (islinebreak c).
Qed.

(** [Forall P [x1; ...; xn]], each element by [tac]. *)
Ltac each tac := repeat (apply Forall_cons_2; [tac|]); apply Forall_nil_2.

(** The lines of a text that [join] built are the lines that were joined,
    when none has a boundary in it and the last one is empty. *)
Lemma splitlines_join ls :
  Forall one_line ls -> splitlines (join [LF] (ls ++ [[]])) = ls.
Proof.
  unfold splitlines. induction 1 as [|l ls Hl _ IH]; [done|].
  change ((l :: ls) ++ [[]]) with (l :: (ls ++ [[]])).
  simpl. destruct (ls ++ [[]]) as [|l' ls'] eqn:E.
  { by destruct ls. }
  rewrite splitlines_from_one_line by done. by rewrite IH.
Qed.

(** ** The routing codec *)

Lemma scan_app st l1 l2 :
  FRR.scan st (l1 ++ l2) = st' ← FRR.scan st l1; FRR.scan st' l2.
Proof.
  revert st. induction l1 as [|l l1 IH]; intros st; simpl; [done|].
  destruct (FRR.scan_line st l); simpl; [apply IH|done].
Qed.

Lemma strip_indented_address a :
  token a -> strip (lit " ip address " ++ a) = lit "ip address " ++ a.
Proof.
  intros Ha. unfold strip.
  change (lstrip (lit " ip address " ++ a)) with (lit "ip address " ++ a).
  by apply rstrip_app_token.
Qed.

Lemma split_address a :
  token a -> split (lit "ip address " ++ a) = [lit "ip"; lit "address"; a].
Proof.
  intros Ha. unfold split.
  change (split_from [] (lit "ip address " ++ a))
    with (lit "ip" :: lit "address" :: split_from [] a).
  by rewrite split_from_token.
Qed.

(** An address line that [set] wrote, read back by the loop of [get]. *)
Lemma scan_line_address st a :
  token a ->
  FRR.scan_line st (lit " ip address " ++ a) =
  Ok match FRR.ip_type st with
     | FRR.sector =>
         FRR.mkScan (FRR.sector_addrs st ++ [a]) (FRR.backplane_addr st)
           (FRR.backplane_gateway st) (FRR.ip_type st)
     | _ =>
         FRR.mkScan (FRR.sector_addrs st) a (FRR.backplane_gateway st) FRR.unset
     end.
Proof.
  intros Ha. unfold FRR.scan_line.
  rewrite strip_indented_address, split_address by done.
  change (startswith (lit "ip address " ++ a) (lit "interface")) with false.
  change (startswith (lit "ip address " ++ a) (lit "ip address")) with true.
  cbv iota. by destruct (FRR.ip_type st).
Qed.

(** The default route line that [set] wrote, read back. *)
Lemma scan_line_route st g :
  token g ->
  FRR.scan_line st (lit "ip route 0.0.0.0/0 " ++ g) =
  Ok (FRR.mkScan (FRR.sector_addrs st) (FRR.backplane_addr st) g (FRR.ip_type st)).
Proof.
  intros Hg. unfold FRR.scan_line.
  assert (strip (lit "ip route 0.0.0.0/0 " ++ g) = lit "ip route 0.0.0.0/0 " ++ g) as ->.
  { unfold strip.
    change (lstrip (lit "ip route 0.0.0.0/0 " ++ g)) with (lit "ip route 0.0.0.0/0 " ++ g).
    by apply rstrip_app_token. }
  assert (split (lit "ip route 0.0.0.0/0 " ++ g)
          = [lit "ip"; lit "route"; lit "0.0.0.0/0"; g]) as ->.
  { unfold split.
    change (split_from [] (lit "ip route 0.0.0.0/0 " ++ g))
      with (lit "ip" :: lit "route" :: lit "0.0.0.0/0" :: split_from [] g).
    by rewrite split_from_token. }
  change (startswith (lit "ip route 0.0.0.0/0 " ++ g) (lit "interface")) with false.
  change (startswith (lit "ip route 0.0.0.0/0 " ++ g) (lit "ip address")) with false.
  change (startswith (lit "ip route 0.0.0.0/0 " ++ g) (lit "ip route 0.0.0.0/0")) with true.
  done.
Qed.

(** The sector block: every address line is collected, in order. *)
Lemma scan_sector_block addrs : forall st,
  Forall token addrs ->
  FRR.ip_type st = FRR.sector ->
  FRR.scan st (map (fun addr => lit " ip address " ++ addr) addrs) =
  Ok (FRR.mkScan (FRR.sector_addrs st ++ addrs) (FRR.backplane_addr st)
        (FRR.backplane_gateway st) FRR.sector).
Proof.
  induction addrs as [|a addrs IH]; intros st Hall Hty.
  - cbn [map FRR.scan]. rewrite app_nil_r, <- Hty. by destruct st.
  - inversion Hall as [|? ? Ha Hall']; subst. cbn [map FRR.scan].
    rewrite scan_line_address, Hty by done. cbn [mbind Result_bind].
    rewrite IH by done. cbn [FRR.sector_addrs FRR.backplane_addr FRR.backplane_gateway].
    by rewrite <- app_assoc.
Qed.

(** The round trip, for arguments that are whitespace-free and non-empty. *)
Section RoutingRoundTrip.

Variable args : FrrSetArgs.
Hypothesis sectors_ok : Forall token (sector_addresses args).
Hypothesis backplane_ok : token (backplane_assigned_addr args).
Hypothesis gateway_ok : token (backplane_gw_ip args).

Lemma lines_one_line :
  exists body, FRR.lines args = body ++ [[]] /\ Forall one_line body.
Proof.
  destruct backplane_ok as [_ Hb]. destruct gateway_ok as [_ Hg].
  exists ([ lit "frr defaults traditional"; lit "log syslog warning";
            lit "ip forwarding"; lit "!"; lit "interface eth0" ]
          ++ map (fun addr => lit " ip address " ++ addr) (sector_addresses args)
          ++ [ lit " no shutdown"; lit "!"; lit "interface eth1";
               lit " ip address " ++ backplane_assigned_addr args;
               lit " no shutdown"; lit "!";
               lit "ip route 0.0.0.0/0 " ++ backplane_gw_ip args;
               lit "!"; lit "end" ]).
  split.
  - unfold FRR.lines. by rewrite <- !app_assoc.
  - apply Forall_app; split; [|apply Forall_app; split].
    + each ltac:(by apply one_line_checked).
    + apply Forall_forall. intros l Hl. apply list_elem_of_In, in_map_iff in Hl.
      destruct Hl as (a & <- & Ha). apply Forall_app; split; [by apply one_line_checked|].
      apply spaceless_one_line. pose proof sectors_ok as Hs.
      rewrite Forall_forall in Hs.
      apply list_elem_of_In in Ha. by destruct (Hs a Ha).
    + each ltac:(first [ by apply one_line_checked
                       | apply Forall_app; split;
                         [by apply one_line_checked | by apply spaceless_one_line] ]).
Qed.

(** The scan of the text that [set] writes, line by line. *)
Lemma frr_parse_render_scan :
  FRR.parse (FRR.render args) =
  Ok (FRR.mkScan (sector_addresses args) (backplane_assigned_addr args)
        (backplane_gw_ip args) FRR.unset).
Proof.
  destruct lines_one_line as (body & Hlines & Hbody).
  unfold FRR.parse, FRR.render. rewrite Hlines, splitlines_join by done.
  apply (f_equal (fun l => removelast l)) in Hlines.
  rewrite removelast_last in Hlines. subst body.
  unfold FRR.lines. rewrite app_assoc, removelast_app by done.
  rewrite <- app_assoc. cbn [removelast].
  rewrite scan_app.
  change (FRR.scan FRR.start _)
    with (Ok (FRR.mkScan [] [] [] FRR.sector)) at 1.
  cbn [mbind Result_bind]. rewrite scan_app, scan_sector_block by done.
  cbn [mbind Result_bind FRR.scan FRR.sector_addrs FRR.backplane_addr
       FRR.backplane_gateway app].
  change (FRR.scan_line ?st (lit " no shutdown")) with (Ok st).
  cbn [mbind Result_bind].
  change (FRR.scan_line ?st (lit "!")) with (Ok st).
  cbn [mbind Result_bind].
  change (FRR.scan_line ?st (lit "interface eth1"))
    with (Ok (FRR.mkScan (FRR.sector_addrs st) (FRR.backplane_addr st)
                (FRR.backplane_gateway st) FRR.backplane)).
  cbn [mbind Result_bind]. rewrite scan_line_address by done.
  cbn [mbind Result_bind FRR.ip_type]. rewrite scan_line_route by done.
  cbn [mbind Result_bind].
  change (FRR.scan_line ?st (lit "end")) with (Ok st).
  done.
Qed.

(** C2. Round trip of the routing codec: for sector addresses, a backplane
    address and a gateway that are whitespace-free and non-empty (the
    hypotheses of this section), the loop of [FRR.get] run on the text of
    [FRR.set] ends normally with the sector addresses in their order and
    number, the backplane address and the gateway that were written.  The
    list of sector addresses may even be empty. *)
Theorem frr_parse_render :
  exists st,
    FRR.parse (FRR.render args) = Ok st
    /\ FRR.sector_addrs st = sector_addresses args
    /\ FRR.backplane_addr st = backplane_assigned_addr args
    /\ FRR.backplane_gateway st = backplane_gw_ip args.
Proof.
  eexists. split; [by apply frr_parse_render_scan|done].
Qed.

End RoutingRoundTrip.

(** ** The firewall codec *)

Lemma strip_drop_rule network :
  strip (lit "    " ++ drop_rule network) = drop_rule network.
Proof.
  unfold strip.
  change (lstrip (lit "    " ++ drop_rule network)) with (drop_rule network).
  unfold drop_rule. rewrite !app_assoc. rewrite rstrip_app; [done|].
  by change (rstrip (lit " drop")) with (lit " drop").
Qed.

Lemma nft_scan_drop_rule st network :
  NFTables.scan_line st (lit "    " ++ drop_rule network) =
  NFTables.mkScan (drop_rule network) (NFTables.postrouting st).
Proof.
  unfold NFTables.scan_line. rewrite strip_drop_rule.
  by change (startswith (drop_rule network) (lit "iif")) with true.
Qed.

(** What [set] writes: some text, the drop rule on a line of its own, and
    the fixed end of the table. *)
Lemma nft_render_shape args :
  exists head,
    NFTables.render args =
    head ++ LF :: (lit "    " ++ drop_rule (backplane_network args)) ++ LF ::
    join [LF] [ lit "  }"; []; lit "  chain postrouting {";
                lit "    type nat hook postrouting priority 100;";
                lit "    " ++ masquerade_rule; lit "  }"; lit "}"; [] ].
Proof.
  exists (join [LF] (take 4 (NFTables.lines args))).
  unfold NFTables.render.
  rewrite <- (take_drop 4 (NFTables.lines args)) at 1.
  rewrite join_app by done. reflexivity.
Qed.

(** The loop of [NFTables.get] on the text of [NFTables.set]: the last [iif]
    line written is the drop rule, and the only [oif] line the masquerade
    rule. *)
Lemma nft_parse_render_rules (args : NFTablesSetArgs) :
  one_line (backplane_network args) ->
  NFTables.parse (NFTables.render args) =
  NFTables.mkScan (drop_rule (backplane_network args)) masquerade_rule.
Proof.
  intros Hnet.
  destruct (nft_render_shape args) as [head ->].
  unfold NFTables.parse, splitlines.
  destruct (splitlines_from_LF head [] (
    (lit "    " ++ drop_rule (backplane_network args)) ++ LF ::
    join [LF] [ lit "  }"; []; lit "  chain postrouting {";
              lit "    type nat hook postrouting priority 100;";
              lit "    " ++ masquerade_rule; lit "  }"; lit "}"; [] ])) as [ls ->].
  rewrite splitlines_from_one_line.
  2:{ apply Forall_app; split; [by apply one_line_checked|].
      unfold drop_rule. rewrite !Forall_app.
      repeat split; try (by apply one_line_checked); done. }
  rewrite fold_left_app. cbn [fold_left app].
  rewrite nft_scan_drop_rule.
  generalize (drop_rule (backplane_network args)) as rule.
  generalize (NFTables.postrouting (fold_left NFTables.scan_line ls NFTables.start)).
  intros post rule. reflexivity.
Qed.

(** ** The table printer *)

Lemma getitem_nat {A : Type} (l : list A) (i : nat) :
  getitem l (Z.of_nat i) =
  match l !! i with
  | Some x => Ok x
  | None => Raise IndexError
  end.
Proof.
  unfold getitem. cbv zeta.
  assert ((Z.of_nat i <? 0)%Z = false) as E by (apply Z.ltb_ge; lia).
  rewrite E. cbv iota. rewrite E. cbn [orb].
  destruct (Z.leb_spec (Z.of_nat (length l)) (Z.of_nat i)).
  - by rewrite lookup_ge_None_2 by lia.
  - by rewrite Nat2Z.id.
Qed.

Lemma grow_length col_widths : forall row,
  length (grow col_widths row) = length col_widths.
Proof.
  induction col_widths as [|w ws IH]; intros [|cell row]; simpl; auto.
Qed.

Lemma widen_grow row : forall seen rest,
  length row <= length rest ->
  widen (seen ++ rest) (length seen) row = Ok (seen ++ grow rest row).
Proof.
  induction row as [|cell row IH]; intros seen rest Hlen.
  - by destruct rest.
  - destruct rest as [|w rest]; simpl in Hlen; [lia|].
    cbn [widen]. rewrite getitem_nat, list_lookup_middle by done.
    cbn [mbind Result_bind]. unfold setitem.
    rewrite decide_True by (rewrite length_app; simpl; lia).
    cbn [mbind Result_bind].
    replace (<[length seen:=Nat.max w (len cell)]> (seen ++ w :: rest))
      with ((seen ++ [Nat.max w (len cell)]) ++ rest).
    2:{ rewrite <- app_assoc. simpl.
        by rewrite <- (Nat.add_0_r (length seen)), insert_app_r. }
    replace (S (length seen)) with (length (seen ++ [Nat.max w (len cell)]))
      by (rewrite length_app; simpl; lia).
    rewrite IH by lia. by rewrite <- app_assoc.
Qed.

Lemma widen_too_long row : forall seen rest,
  length rest < length row ->
  widen (seen ++ rest) (length seen) row = Raise IndexError.
Proof.
  induction row as [|cell row IH]; intros seen rest Hlen; simpl in Hlen; [lia|].
  cbn [widen]. rewrite getitem_nat. destruct rest as [|w rest].
  - rewrite app_nil_r, lookup_ge_None_2 by lia. done.
  - rewrite list_lookup_middle by done. cbn [mbind Result_bind]. unfold setitem.
    rewrite decide_True by (rewrite length_app; simpl; lia).
    cbn [mbind Result_bind].
    replace (<[length seen:=Nat.max w (len cell)]> (seen ++ w :: rest))
      with ((seen ++ [Nat.max w (len cell)]) ++ rest).
    2:{ rewrite <- app_assoc. simpl.
        by rewrite <- (Nat.add_0_r (length seen)), insert_app_r. }
    replace (S (length seen)) with (length (seen ++ [Nat.max w (len cell)]))
      by (rewrite length_app; simpl; lia).
    apply IH. simpl in Hlen. lia.
Qed.

Lemma widen_row col_widths row :
  length row <= length col_widths -> widen col_widths 0 row = Ok (grow col_widths row).
Proof. apply (widen_grow row [] col_widths). Qed.

Lemma widen_long_row col_widths row :
  length col_widths < length row -> widen col_widths 0 row = Raise IndexError.
Proof. apply (widen_too_long row [] col_widths). Qed.

Lemma widen_all_grow rows : forall col_widths,
  Forall (fun row => length row <= length col_widths) rows ->
  widen_all col_widths rows = Ok (foldl grow col_widths rows).
Proof.
  induction rows as [|row rows IH]; intros cw Hall; [done|].
  inversion Hall as [|? ? Hrow Hrows]; subst. cbn [widen_all foldl].
  rewrite widen_row by done. cbn [mbind Result_bind].
  apply IH. eapply Forall_impl; [exact Hrows|]. intros r Hr. simpl in *.
  by rewrite grow_length.
Qed.

Lemma widen_all_too_long rows : forall col_widths,
  Exists (fun row => length col_widths < length row) rows ->
  widen_all col_widths rows = Raise IndexError.
Proof.
  induction rows as [|row rows IH]; intros cw Hex; [by inversion Hex|].
  cbn [widen_all]. destruct (decide (length cw < length row)) as [Hlong|Hshort].
  - by rewrite widen_long_row.
  - rewrite widen_row by lia. cbn [mbind Result_bind].
    apply IH. inversion Hex as [? ? Hrow|? ? Hrows]; subst; [lia|].
    eapply Exists_impl; [exact Hrows|]. intros r Hr. simpl in *.
    by rewrite grow_length.
Qed.

Lemma justified_zip row : forall seen rest,
  length row <= length rest ->
  justified (seen ++ rest) (length seen) row = Ok (zip_with ljust row rest).
Proof.
  induction row as [|cell row IH]; intros seen rest Hlen; [done|].
  destruct rest as [|w rest]; simpl in Hlen; [lia|].
  cbn [justified]. rewrite getitem_nat, list_lookup_middle by done.
  cbn [mbind Result_bind].
  replace (seen ++ w :: rest) with ((seen ++ [w]) ++ rest) by (by rewrite <- app_assoc).
  replace (S (length seen)) with (length (seen ++ [w]))
    by (rewrite length_app; simpl; lia).
  by rewrite IH by lia.
Qed.

Lemma format_row_zip col_widths row :
  length row <= length col_widths ->
  format_row col_widths row = Ok (join (lit "  ") (zip_with ljust row col_widths)).
Proof.
  intros Hlen. unfold format_row.
  by rewrite (justified_zip row [] col_widths Hlen : justified col_widths 0 row = _).
Qed.

Lemma ljust_dashes w : ljust (dashes w) w = dashes w.
Proof.
  unfold ljust, dashes, len. rewrite length_replicate, Nat.sub_diag.
  apply app_nil_r.
Qed.

Lemma zip_ljust_dashes col_widths :
  zip_with ljust (map dashes col_widths) col_widths = map dashes col_widths.
Proof.
  induction col_widths as [|w ws IH]; simpl; [done|].
  by rewrite ljust_dashes, IH.
Qed.

Lemma print_rows_lines rows : forall col_widths w,
  Forall (fun row => length row <= length col_widths) rows ->
  print_rows col_widths rows w =
  (Ok tt,
   set_stdout
     (stdout w ++
      map (fun row => join (lit "  ") (zip_with ljust row col_widths)) rows) w).
Proof.
  induction rows as [|row rows IH]; intros cw w Hall.
  - simpl. rewrite app_nil_r. by destruct w.
  - inversion Hall as [|? ? Hrow Hrows]; subst.
    cbn [print_rows]. unfold mbind, M_bind, lift at 1.
    rewrite format_row_zip by done. unfold print at 1.
    rewrite IH by done. cbn [stdout set_stdout map].
    by rewrite <- app_assoc.
Qed.

(** The lines [__print_table__] prints, with the widths its loops leave. *)
Lemma print_table_lines headers rows w :
  Forall (fun row => length row <= length headers) rows ->
  let col_widths := foldl grow (map len headers) rows in
  let line row := join (lit "  ") (zip_with ljust row col_widths) in
  print_table headers rows w =
  (Ok tt,
   set_stdout
     (stdout w ++
      line headers :: join (lit "  ") (map dashes col_widths) :: map line rows) w).
Proof.
  intros Hall cw line. unfold print_table.
  assert (length cw = length headers) as Hcw.
  { subst cw. generalize (map len headers) (length_map len headers).
    induction rows as [|r rows IH]; intros l Hl; [done|].
    cbn [foldl]. inversion Hall; subst. apply IH; [done|by rewrite grow_length]. }
  unfold mbind, M_bind, lift.
  rewrite widen_all_grow by by rewrite length_map.
  fold cw. rewrite format_row_zip by lia.
  unfold print at 1. rewrite format_row_zip by (rewrite length_map; lia).
  unfold print at 1. rewrite zip_ljust_dashes.
  rewrite print_rows_lines
    by (eapply Forall_impl; [exact Hall|]; intros r Hr; simpl in *; lia).
  cbn [stdout set_stdout]. subst line. cbn beta.
  by rewrite <- !app_assoc.
Qed.

Lemma grow_nth col_widths : forall row j,
  j < length col_widths ->
  nth j (grow col_widths row) 0 = Nat.max (nth j col_widths 0) (len (nth j row [])).
Proof.
  induction col_widths as [|w ws IH]; intros row j Hj; simpl in Hj; [lia|].
  destruct row as [|cell row].
  - cbn [grow]. unfold len. destruct j; simpl; by rewrite Nat.max_0_r.
  - destruct j as [|j]; [done|]. cbn [grow nth]. apply IH. lia.
Qed.

Lemma foldl_grow_length rows : forall col_widths,
  length (foldl grow col_widths rows) = length col_widths.
Proof.
  induction rows as [|row rows IH]; intros cw; [done|].
  cbn [foldl]. by rewrite IH, grow_length.
Qed.

Lemma foldl_grow_nth rows : forall col_widths j,
  j < length col_widths ->
  nth j (foldl grow col_widths rows) 0 =
  max_list (nth j col_widths 0 :: map (fun row => len (nth j row [])) rows).
Proof.
  induction rows as [|row rows IH]; intros cw j Hj.
  - simpl. by rewrite Nat.max_0_r.
  - cbn [foldl]. rewrite IH by (by rewrite grow_length).
    rewrite grow_nth by done. simpl. by rewrite Nat.max_assoc.
Qed.

(** The widths the loops of [__print_table__] compute are the column
    widths of the specification. *)
Lemma foldl_grow_column_widths headers rows :
  foldl grow (map len headers) rows = column_widths headers rows.
Proof.
  apply (nth_ext _ _ 0 0).
  - unfold column_widths.
    by rewrite foldl_grow_length, !length_map, length_seq.
  - intros j Hj. rewrite foldl_grow_length, length_map in Hj.
    rewrite foldl_grow_nth by (by rewrite length_map).
    unfold column_widths.
    rewrite (nth_indep (map (column_width headers rows) (seq 0 (length headers)))
               0 (column_width headers rows 0))
      by (by rewrite length_map, length_seq).
    rewrite (map_nth (column_width headers rows)), seq_nth by done.
    unfold column_width. simpl.
    by rewrite <- (map_nth len headers [] j).
Qed.

(** C8. The table printer: for rows that each have as many cells as there
    are headers, [__print_table__] prints exactly the table of the
    specification: each column as wide as the widest of its header and its
    cells, the header row, a separator row of dashes of exactly each
    column's width, then every data row, the cells left-justified to their
    column's width and joined by two spaces. *)
Theorem print_table_spec (headers : list str) (rows : list (list str)) (w : World) :
  Forall (fun row => length row = length headers) rows ->
  print_table headers rows w =
  (Ok tt, set_stdout (stdout w ++ table headers rows) w).
Proof.
  intros Hall. rewrite print_table_lines.
  - cbv zeta. rewrite foldl_grow_column_widths. reflexivity.
  - eapply Forall_impl; [exact Hall|]. intros r Hr. simpl in *. lia.
Qed.

Lemma print_table_long_row headers rows w :
  Exists (fun row => length headers < length row) rows ->
  widen_all (map len headers) rows = Raise IndexError
  /\ print_table headers rows w = (Raise IndexError, w).
Proof.
  intros Hex.
  assert (widen_all (map len headers) rows = Raise IndexError) as E.
  { apply widen_all_too_long. by rewrite length_map. }
  split; [done|]. unfold print_table, mbind, M_bind, lift. by rewrite E.
Qed.

(** C10. The table printer ends normally when no row has more cells than
    there are headers, shorter rows included; and there is an input with a
    row longer than the headers on which the computation of the column
    widths raises [IndexError] and nothing is printed. *)
Theorem print_table_total_up_to_headers :
  (forall (headers : list str) (rows : list (list str)) (w : World),
      Forall (fun row => length row <= length headers) rows ->
      exists w', print_table headers rows w = (Ok tt, w'))
  /\ (exists (headers : list str) (rows : list (list str)),
         Exists (fun row => length headers < length row) rows
         /\ widen_all (map len headers) rows = Raise IndexError
         /\ forall w, print_table headers rows w = (Raise IndexError, w)).
Proof.
  split.
  - intros headers rows w Hall. rewrite print_table_lines by done. by eexists.
  - exists [lit "Field"], [[lit "Config Path"; lit "/etc/frr/frr.conf"]].
    assert (Exists (fun row : list str => length [lit "Field"] < length row)
              [[lit "Config Path"; lit "/etc/frr/frr.conf"]]) as Hex.
    { apply Exists_cons_hd. simpl. lia. }
    split; [done|]. split.
    + by apply (print_table_long_row _ _ (mkWorld 0 ∅ ∅ [] [] [] (fun _ => None) (fun _ => true))).
    + intros w. by apply print_table_long_row.
Qed.

(** ** The guards *)

Lemma bind_ok {A B : Type} (m : M A) (k : A -> M B) w a w' :
  m w = (Ok a, w') -> (m ≫= k) w = k a w'.
Proof. intros E. unfold mbind, M_bind. by rewrite E. Qed.

Lemma bind_raise {A B : Type} (m : M A) (k : A -> M B) w e w' :
  m w = (Raise e, w') -> (m ≫= k) w = (Raise e, w').
Proof. intros E. unfold mbind, M_bind. by rewrite E. Qed.

Lemma die_exits msg w :
  die msg w = (Raise (SystemExit 1), set_stderr (stderr w ++ [lit "ERROR: " ++ msg]) w).
Proof. reflexivity. Qed.

Lemma init_not_root path w :
  euid w <> 0%Z ->
  init path w =
  (Raise (SystemExit 1),
   set_stderr (stderr w ++ [lit "ERROR: This command must be run as root"]) w).
Proof.
  intros Huid. unfold init, ensure_root, mbind, M_bind, geteuid.
  destruct (Z.eqb_spec (euid w) 0); [done|]. reflexivity.
Qed.

(** C5. The root guard: whatever the tool and the action, when the
    effective user is not root [main] exits with code 1 while the first tool
    is built; one line with the [ERROR: ] prefix has gone to stderr, and
    no file or directory has been written, nothing printed and no command
    run. *)
Theorem main_not_root (args : Command) (w : World) :
  euid w <> 0%Z ->
  exists w',
    main args w = (Raise (SystemExit 1), w')
    /\ stderr w' = stderr w ++ [lit "ERROR: " ++ lit "This command must be run as root"]
    /\ files w' = files w /\ dirs w' = dirs w
    /\ stdout w' = stdout w /\ spawned w' = spawned w.
Proof.
  intros Huid. unfold main, mbind at 1, M_bind at 1.
  rewrite init_not_root by done. eexists. split; [reflexivity|]. done.
Qed.

Lemma lineage_length (p q : Path) : p ∈ lineage q -> length p <= length q.
Proof.
  unfold lineage. intros Hp. apply list_elem_of_In, in_map_iff in Hp.
  destruct Hp as (n & <- & _). rewrite length_take. lia.
Qed.

Lemma is_dir_true w q :
  is_dir w q = true <-> q = [] \/ q ∈ dirs w \/ set_Exists (above q) (entries w).
Proof. apply bool_decide_eq_true. Qed.

Lemma lineage_above (p p' q : Path) :
  q ∈ lineage (parent p) -> p `prefix_of` p' -> above q p'.
Proof.
  intros Hq [k ->]. unfold lineage in Hq.
  apply list_elem_of_In, in_map_iff in Hq. destruct Hq as (n & <- & Hn).
  apply in_seq in Hn. unfold parent in *.
  rewrite removelast_firstn_len in *. rewrite length_take in Hn.
  assert (p <> []) as Hne by (intros ->; simpl in Hn; lia).
  split.
  - intros E. apply (f_equal length) in E.
    rewrite !length_take, length_app in E. destruct p; [done|]. simpl in *. lia.
  - rewrite take_take. exists (drop (n `min` Init.Nat.pred (length p)) p ++ k).
    by rewrite app_assoc, take_drop.
Qed.

(** What exists is the root or lies at or above an entry. *)
Lemma path_exists_covered p w :
  (path_exists p w).1 = Ok true ->
  p = [] \/ exists p', p' ∈ entries w /\ p `prefix_of` p'.
Proof.
  unfold path_exists. cbn [fst]. intros [= H].
  apply orb_true_iff in H as [H|H].
  - right. exists p. split; [|done]. apply bool_decide_eq_true in H.
    apply elem_of_union. left. by apply elem_of_dom.
  - apply is_dir_true in H as [->|[H|(p' & Hin & _ & Hpre)]]; [by left| |].
    + right. exists p. split; [|done]. apply elem_of_union. by right.
    + right. by exists p'.
Qed.

(** Where the configuration path exists, the directories above it are
    directories, and nothing stands in the way of [mkdir]. *)
Lemma path_exists_not_blocked p w :
  (path_exists p w).1 = Ok true -> blocked w (parent p) = false.
Proof.
  intros Hp. unfold blocked. apply not_true_is_false. intros Hex.
  apply existsb_exists in Hex as (q & Hq & Hfile).
  apply list_elem_of_In in Hq.
  apply andb_true_iff in Hfile as [_ Hnot]. apply negb_true_iff in Hnot.
  enough (is_dir w q = true) by congruence. apply is_dir_true.
  destruct (path_exists_covered p w Hp) as [->|(p' & Hin & Hpre)].
  - by inversion Hq.
  - right. right. exists p'. split; [done|]. by eapply lineage_above.
Qed.

Lemma is_dir_with_parents self w q :
  is_dir w q = true -> is_dir (with_parents self w) q = true.
Proof.
  rewrite !is_dir_true. unfold with_parents, entries. cbn [dirs files set_dirs].
  intros [?|[?|(p' & Hin & Habove)]]; [by left|right; left; set_solver|].
  right. right. exists p'. split; [set_solver|done].
Qed.

Lemma path_exists_with_parents self w :
  (path_exists (config self) (with_parents self w)).1
  = (path_exists (config self) w).1.
Proof.
  unfold path_exists. cbn [fst]. f_equal.
  change (files (with_parents self w)) with (files w).
  destruct (bool_decide (is_Some (files w !! config self))); [done|]. cbn [orb].
  destruct (is_dir w (config self)) eqn:E.
  { by apply is_dir_with_parents. }
  apply not_true_is_false. intros H. apply is_dir_true in H.
  assert (is_dir w (config self) = true -> False) as Hno by congruence.
  assert (forall q, q ∈ lineage (parent (config self)) ->
                    length q < length (config self)) as Hshort.
  { intros q Hq. apply lineage_length in Hq. unfold parent in Hq.
    rewrite removelast_firstn_len, length_take in Hq.
    assert (config self <> []) as Hne.
    { intros E'. apply Hno, is_dir_true. by left. }
    destruct (config self); [done|]. simpl in *. lia. }
  unfold with_parents, entries in H. cbn [dirs files set_dirs] in H.
  destruct H as [H|[H|(p' & Hin & Hne & Hpre)]].
  - apply Hno, is_dir_true. by left.
  - apply elem_of_union in H as [H|H].
    + apply Hno, is_dir_true. right. by left.
    + apply elem_of_list_to_set, Hshort in H. lia.
  - assert (p' ∈ entries w \/ p' ∈ lineage (parent (config self))) as [Hold|Hnew]
      by (unfold entries; set_solver).
    + apply Hno, is_dir_true. right. right. by exists p'.
    + apply Hshort in Hnew. apply prefix_length in Hpre. lia.
Qed.

Lemma pre_checks_blocked self w :
  blocked w (parent (config self)) = true ->
  pre_checks self w = (Raise OSError, w).
Proof.
  intros Hb. unfold pre_checks, mbind, M_bind, mkdir_parents. by rewrite Hb.
Qed.

Lemma pre_checks_absent self w :
  (path_exists (config self) w).1 = Ok false ->
  blocked w (parent (config self)) = false ->
  pre_checks self w =
  (Raise (SystemExit 1),
   set_stderr
     (stderr w ++ [lit "ERROR: " ++ path_str (config self) ++ lit " does not exist"])
     (set_dirs (dirs w ∪ list_to_set (lineage (parent (config self)))) w)).
Proof.
  intros Habs Hfree. unfold pre_checks, mbind, M_bind, mkdir_parents.
  rewrite Hfree. fold (with_parents self w).
  pose proof (path_exists_with_parents self w) as E. rewrite Habs in E.
  destruct (path_exists (config self) (with_parents self w)) as [r w1] eqn:E1.
  unfold path_exists in E1. injection E1 as E1 <-. cbn [fst] in E. subst r.
  injection E as ->. cbn [negb]. by rewrite die_exits.
Qed.

Lemma pre_checks_present self w :
  (path_exists (config self) w).1 = Ok true ->
  pre_checks self w =
  (Ok tt, set_dirs (dirs w ∪ list_to_set (lineage (parent (config self)))) w).
Proof.
  intros Hpre. unfold pre_checks, mbind, M_bind, mkdir_parents.
  rewrite (path_exists_not_blocked _ _ Hpre). fold (with_parents self w).
  pose proof (path_exists_with_parents self w) as E. rewrite Hpre in E.
  destruct (path_exists (config self) (with_parents self w)) as [r w1] eqn:E1.
  unfold path_exists in E1. injection E1 as E1 <-. cbn [fst] in E. subst r.
  by injection E as ->.
Qed.


Lemma run_outcome cmd w rc :
  returncode w cmd = Some rc ->
  run cmd w =
  if (rc =? 0)%Z
  then (Ok tt, set_spawned (spawned w ++ [cmd]) w)
  else (Raise (SystemExit 1),
        set_stderr
          (stderr w ++ [lit "ERROR: " ++ lit "Command failed: " ++ join (lit " ") cmd])
          (set_spawned (spawned w ++ [cmd]) w)).
Proof.
  intros Hrc. unfold run, mbind, M_bind, subprocess_run. rewrite Hrc.
  by destruct (rc =? 0)%Z.
Qed.

Lemma restart_shape service started self w :
  (path_exists (config self) w).1 = Ok true ->
  restart_reports
    (fun self => pre_checks self;;
                 run [lit "systemctl"; lit "restart"; service];;
                 print started)
    service started self w.
Proof.
  intros Hpre. unfold restart_reports. cbv zeta. intros rc Hrc.
  rewrite !(bind_ok _ _ _ _ _ (pre_checks_present self w Hpre)).
  pose proof (run_outcome [lit "systemctl"; lit "restart"; service]
                (set_dirs (dirs w ∪ list_to_set (lineage (parent (config self)))) w)
                rc Hrc) as Hrun.
  destruct (Z.eqb_spec rc 0) as [->|Hne].
  - rewrite !(bind_ok _ _ _ _ _ Hrun). by repeat split.
  - rewrite !(bind_raise _ _ _ _ _ Hrun). by repeat split.
Qed.

(** C7. The restart guard: for both tools, once the pre-flight checks have
    passed, a non-zero exit status of the service command makes [restart]
    print an [ERROR: ] line that names the command as it was run
    and exit with code 1, without the confirmation; a zero status makes it
    print the confirmation that names the tool, and it ends normally. *)
Theorem restart_outcome (self : Tool) (w : World) :
  (path_exists (config self) w).1 = Ok true ->
  restart_reports FRR.restart (lit "frr") (lit "FRR restarted successfully") self w
  /\ restart_reports NFTables.restart (lit "nftables")
       (lit "nftables restarted successfully") self w.
Proof.
  intros Hpre. split; by apply restart_shape.
Qed.

(** ** Where the routing scan ends normally *)

Lemma getitem_in_range {A : Type} (l : list A) (i : nat) :
  i < length l -> exists x, getitem l (Z.of_nat i) = Ok x.
Proof.
  intros Hi. rewrite getitem_nat.
  destruct (lookup_lt_is_Some_2 l i Hi) as [x ->]. by exists x.
Qed.

Lemma getitem_last {A : Type} (l : list A) :
  l <> [] -> exists x, getitem l (-1) = Ok x.
Proof.
  intros Hne. unfold getitem. cbv zeta.
  assert (0 < length l) as Hlen by (destruct l; [done|simpl; lia]).
  change (-1 <? 0)%Z with true. cbv iota.
  assert ((-1 + Z.of_nat (length l) <? 0)%Z = false) as -> by (apply Z.ltb_ge; lia).
  assert ((Z.of_nat (length l) <=? -1 + Z.of_nat (length l))%Z = false) as ->
    by (apply Z.leb_gt; lia).
  cbn [orb].
  destruct (lookup_lt_is_Some_2 l (Z.to_nat (-1 + Z.of_nat (length l)))
              ltac:(lia)) as [x ->].
  by exists x.
Qed.

Lemma scan_line_total st line :
  (startswith (strip line) (lit "ip address") = true ->
   3 <= length (split (strip line))) ->
  exists st', FRR.scan_line st line = Ok st'.
Proof.
  intros Haddr. unfold FRR.scan_line.
  generalize (if startswith (strip line) (lit "interface")
              then FRR.mkScan (FRR.sector_addrs st) (FRR.backplane_addr st)
                     (FRR.backplane_gateway st)
                     (if contains (strip line) (lit "eth0")
                      then FRR.sector else FRR.backplane)
              else st).
  intros st1. cbv zeta.
  destruct (startswith (strip line) (lit "ip address")) eqn:Ea.
  - destruct (getitem_in_range (split (strip line)) 2 ltac:(specialize (Haddr eq_refl); lia))
      as [addr Hget].
    change (Z.of_nat 2) with 2%Z in Hget. rewrite Hget. cbn [mbind Result_bind].
    destruct (FRR.ip_type st1); by eexists.
  - destruct (startswith (strip line) (lit "ip route 0.0.0.0/0")) eqn:Er; [|by eexists].
    apply startswith_spec in Er as [t Er]. rewrite Er.
    destruct (getitem_last (split (lit "ip route 0.0.0.0/0" ++ t))) as [gw ->];
      [done|]. by eexists.
Qed.

(** The loop of [FRR.get] ends normally on every text whose address lines
    all carry an address; nothing else in a text can make it raise. *)
Theorem frr_parse_total (text : str) :
  address_lines_complete text -> exists st, FRR.parse text = Ok st.
Proof.
  unfold address_lines_complete, FRR.parse. generalize FRR.start.
  induction (splitlines text) as [|line rest IH]; intros st Hall.
  - by exists st.
  - inversion Hall as [|? ? Hline Hrest]; subst.
    destruct (scan_line_total st line Hline) as [st' E].
    cbn [FRR.scan]. rewrite E. cbn [mbind Result_bind]. by apply IH.
Qed.

(** ** Writing, then reading back *)

Lemma path_exists_file (p : Path) (text : str) (w : World) :
  files w !! p = Some text -> (path_exists p w).1 = Ok true.
Proof.
  intros Hfile. unfold path_exists. cbn [fst].
  f_equal. apply orb_true_iff. left. apply bool_decide_eq_true.
  rewrite Hfile. by eexists.
Qed.

Lemma write_text_ok (p : Path) (text : str) (w : World) :
  writable w p text ->
  write_text p text w = (Ok tt, set_files (<[p := text]> (files w)) w).
Proof.
  intros (Hp & Hparent & Htext). unfold write_text.
  by rewrite Hp, Hparent, Htext.
Qed.

Lemma frr_set_world (self : Tool) (args : FrrSetArgs) (w : World) :
  writable w (config self) (FRR.render args) ->
  FRR.set self args w =
  (Ok tt,
   set_stdout (stdout w ++ [lit "Wrote FRR configuration to " ++ path_str (config self)])
     (set_files (<[config self := FRR.render args]> (files w)) w)).
Proof.
  intros Hw. unfold FRR.set. by rewrite (bind_ok _ _ _ _ _ (write_text_ok _ _ _ Hw)).
Qed.

(** [set] and then [get] of the routing tool, on arguments that are
    whitespace-free and non-empty and where the file can be written (its
    path is no directory, the path above it is one, and the text can be
    encoded): the text goes to the configuration file, and the table printed
    shows the sector addresses joined by a comma and a space, the backplane
    address, the gateway and the path. *)
Theorem frr_set_then_get (self : Tool) (args : FrrSetArgs) (w : World) :
  Forall token (sector_addresses args) ->
  token (backplane_assigned_addr args) ->
  token (backplane_gw_ip args) ->
  writable w (config self) (FRR.render args) ->
  exists w',
    (FRR.set self args;; FRR.get self) w = (Ok tt, w')
    /\ files w' !! config self = Some (FRR.render args)
    /\ stdout w' =
       stdout w
       ++ [lit "Wrote FRR configuration to " ++ path_str (config self)]
       ++ table [lit "Field"; lit "Value"]
            [ [lit "Sector Gateways"; join (lit ", ") (sector_addresses args)];
              [lit "Backplane Address"; backplane_assigned_addr args];
              [lit "Backplane Gateway"; backplane_gw_ip args];
              [lit "Config Path"; path_str (config self)] ].
Proof.
  intros Hs Hb Hg Hw.
  pose proof (frr_parse_render_scan args Hs Hb Hg) as Hparse.
  rewrite (bind_ok _ _ _ _ _ (frr_set_world self args w Hw)).
  set (w1 := set_stdout _ _).
  assert (files w1 !! config self = Some (FRR.render args)) as Hfile
    by apply lookup_insert_eq.
  unfold FRR.get.
  rewrite (bind_ok _ _ _ _ _
             (pre_checks_present self w1 (path_exists_file _ _ _ Hfile))).
  unfold mbind at 1, M_bind at 1, read_text at 1.
  cbn [files set_dirs]. rewrite Hfile.
  unfold mbind at 1, M_bind at 1, lift at 1. rewrite Hparse.
  unfold FRR.rows.
  cbn [FRR.sector_addrs FRR.backplane_addr FRR.backplane_gateway].
  rewrite print_table_lines
    by each ltac:(simpl; lia).
  cbv zeta. rewrite foldl_grow_column_widths.
  eexists. split; [reflexivity|]. cbn [files stdout set_files set_stdout set_dirs].
  split; [done|]. subst w1. cbn [stdout set_stdout]. by rewrite <- app_assoc.
Qed.

(** * The properties on the inputs of the test suite *)

(** A decision procedure for [token], for the literals of the examples. *)
Lemma token_checked s :
  match s with
  | [] => false
  | _ => forallb (fun c => negb (isspace c)) s
  end = true ->
  token s.
Proof.
  intros H. split; [by intros ->|].
  assert (forallb (fun c => negb (isspace c)) s = true) as Hall by by destruct s.
  apply Forall_forall. intros c Hc. rewrite forallb_forall in Hall.
  apply list_elem_of_In in Hc. specialize (Hall c Hc). by destruct (isspace c).
Qed.

(** The routing round trip on the arguments of [test_set]. *)
Lemma frr_parse_render_sample :
  (Forall token (sector_addresses sample_frr_args)
   /\ token (backplane_assigned_addr sample_frr_args)
   /\ token (backplane_gw_ip sample_frr_args))
  /\ exists st,
       FRR.parse (FRR.render sample_frr_args) = Ok st
       /\ FRR.sector_addrs st = [lit "10.1.1.1/24"; lit "10.1.2.1/24"]
       /\ FRR.backplane_addr st = lit "192.168.1.100/24"
       /\ FRR.backplane_gateway st = lit "192.168.1.1".
Proof.
  assert (Forall token (sector_addresses sample_frr_args)) as Hs.
  { each ltac:(apply token_checked; reflexivity). }
  assert (token (backplane_assigned_addr sample_frr_args)) as Hb
    by (apply token_checked; reflexivity).
  assert (token (backplane_gw_ip sample_frr_args)) as Hg
    by (apply token_checked; reflexivity).
  split; [done|]. exact (frr_parse_render sample_frr_args Hs Hb Hg).
Defined.

(** C1 fails on the code. On the arguments of [test_set], both non-empty,
    [set] writes the destination NAT rule and then the drop rule, both
    starting with [iif]; the loop of [get] keeps the last, so the prerouting
    rule it shows is the drop rule, and the primary sector address that
    [set] wrote is no substring of it. *)
Lemma nft_prerouting_without_primary_ip :
  primary_sector_ip sample_nft_args <> []
  /\ backplane_network sample_nft_args <> []
  /\ NFTables.prerouting (NFTables.parse (NFTables.render sample_nft_args))
     = drop_rule (lit "192.168.1.0/24")
  /\ contains
       (NFTables.prerouting (NFTables.parse (NFTables.render sample_nft_args)))
       (primary_sector_ip sample_nft_args) = false.
Proof.
  split; [done|]. split; [done|]. split; vm_compute; reflexivity.
Qed.

(** C3 fails on the code: an address line without an address makes the loop
    of [FRR.get] raise [IndexError], at [config_line.split()[2]]; [get] then
    ends with that exception and prints no table. *)
Lemma frr_parse_address_without_value :
  FRR.parse (lit "ip address") = Raise IndexError
  /\ (let w := sample_world 0 {[ frr_conf := lit "ip address" ]} 0 in
      FRR.get (mkTool frr_conf) w
      = (Raise IndexError, set_dirs (list_to_set (lineage (parent frr_conf))) w)).
Proof.
  split; [reflexivity|]. intros w.
  assert ((path_exists frr_conf w).1 = Ok true) as Hpre by (vm_compute; reflexivity).
  unfold FRR.get.
  rewrite (bind_ok _ _ _ _ _ (pre_checks_present (mkTool frr_conf) w Hpre)).
  subst w. cbn [dirs sample_world config]. rewrite (left_id_L ∅ (∪)).
  reflexivity.
Qed.

(** C4 fails on the code: with two address lines in the block of the
    backplane interface, the loop of [FRR.get] ends with the second one as
    backplane address. *)
Lemma frr_parse_backplane_second_address :
  FRR.parse (join [LF] [ lit "interface eth1";
                         lit " ip address 192.168.1.100/24";
                         lit " ip address 192.168.1.101/24";
                         lit " no shutdown" ])
  = Ok (FRR.mkScan [] (lit "192.168.1.101/24") [] FRR.unset).
Proof. vm_compute. reflexivity. Qed.

(** The root guard for a user other than root. *)
Lemma main_not_root_sample :
  euid (sample_world 1000 ∅ 0) <> 0%Z
  /\ exists w',
       main frr_restart (sample_world 1000 ∅ 0) = (Raise (SystemExit 1), w')
       /\ stderr w' = [lit "ERROR: This command must be run as root"]
       /\ files w' = ∅ /\ dirs w' = ∅ /\ stdout w' = [] /\ spawned w' = [].
Proof.
  assert (euid (sample_world 1000 ∅ 0) <> 0%Z) as Huid by (cbn; lia).
  split; [done|]. exact (main_not_root frr_restart (sample_world 1000 ∅ 0) Huid).
Defined.



(** The restart guard when the service command exits with status 1. *)
Lemma restart_outcome_sample :
  let self := mkTool frr_conf in
  let w := sample_world 0 {[ frr_conf := FRR.render sample_frr_args ]} 1 in
  (path_exists frr_conf w).1 = Ok true
  /\ (FRR.restart self w).1 = Raise (SystemExit 1)
  /\ stderr (FRR.restart self w).2
     = [lit "ERROR: Command failed: systemctl restart frr"]
  /\ stdout (FRR.restart self w).2 = []
  /\ spawned (FRR.restart self w).2 = [[lit "systemctl"; lit "restart"; lit "frr"]].
Proof.
  intros self w.
  assert ((path_exists frr_conf w).1 = Ok true) as Hpre by (vm_compute; reflexivity).
  split; [done|].
  destruct (restart_outcome self w Hpre) as [Hfrr _].
  destruct (Hfrr 1%Z eq_refl) as (Hrun & Hfail & _).
  destruct (Hfail ltac:(lia)) as (Hexit & Herr & Hout).
  by repeat split.
Defined.

(** The table of the specification's example. *)
Lemma print_table_spec_sample :
  let headers := [lit "Field"; lit "Value"] in
  let rows := [ [lit "Sector Gateways"; lit "10.1.1.1/24, 10.1.2.1/24"];
                [lit "Backplane Address"; lit "192.168.1.100/24"] ] in
  Forall (fun row => length row = length headers) rows
  /\ print_table headers rows (sample_world 0 ∅ 0) =
     (Ok tt,
      set_stdout
        [ lit "Field              Value                   ";
          lit "-----------------  ------------------------";
          lit "Sector Gateways    10.1.1.1/24, 10.1.2.1/24";
          lit "Backplane Address  192.168.1.100/24        " ]
        (sample_world 0 ∅ 0)).
Proof.
  intros headers rows.
  assert (Forall (fun row => length row = length headers) rows) as Hall.
  { each ltac:(reflexivity). }
  split; [done|]. exact (print_table_spec headers rows (sample_world 0 ∅ 0) Hall).
Defined.

(** A short row is printed as far as it goes. *)
Lemma print_table_short_row_sample :
  let headers := [lit "Field"; lit "Value"] in
  let rows := [ [lit "Config Path"] ] in
  Forall (fun row => length row <= length headers) rows
  /\ exists w', print_table headers rows (sample_world 0 ∅ 0) = (Ok tt, w').
Proof.
  intros headers rows.
  assert (Forall (fun row => length row <= length headers) rows) as Hall.
  { each ltac:(simpl; lia). }
  split; [done|].
  exact (proj1 print_table_total_up_to_headers headers rows (sample_world 0 ∅ 0) Hall).
Defined.

(** A decision procedure for [address_lines_complete]. *)
Lemma address_lines_complete_checked text :
  forallb (fun line =>
             implb (startswith (strip line) (lit "ip address"))
                   (3 <=? length (split (strip line))))
    (splitlines text) = true ->
  address_lines_complete text.
Proof.
  intros H. apply Forall_forall. intros line Hline Hstart.
  rewrite forallb_forall in H. apply list_elem_of_In in Hline.
  specialize (H line Hline). rewrite Hstart in H. by apply Nat.leb_le.
Qed.

(** The configuration of [test_get] is scanned to the end. *)
Lemma frr_parse_total_sample :
  address_lines_complete sample_frr_config
  /\ exists st, FRR.parse sample_frr_config = Ok st.
Proof.
  assert (address_lines_complete sample_frr_config) as Hok
    by (apply address_lines_complete_checked; reflexivity).
  split; [done|]. exact (frr_parse_total sample_frr_config Hok).
Defined.

(** [set] and then [get] on the arguments of [test_set], where [/etc/frr]
    is a directory. *)
Lemma frr_set_then_get_sample :
  let self := mkTool frr_conf in
  let w := bare_world ∅ {[ parent frr_conf ]} in
  (Forall token (sector_addresses sample_frr_args)
   /\ token (backplane_assigned_addr sample_frr_args)
   /\ token (backplane_gw_ip sample_frr_args)
   /\ writable w (config self) (FRR.render sample_frr_args))
  /\ exists w',
       (FRR.set self sample_frr_args;; FRR.get self) w = (Ok tt, w')
       /\ files w' !! frr_conf = Some (FRR.render sample_frr_args)
       /\ stdout w' =
          [ lit "Wrote FRR configuration to /etc/frr/frr.conf";
            lit "Field              Value                   ";
            lit "-----------------  ------------------------";
            lit "Sector Gateways    10.1.1.1/24, 10.1.2.1/24";
            lit "Backplane Address  192.168.1.100/24        ";
            lit "Backplane Gateway  192.168.1.1             ";
            lit "Config Path        /etc/frr/frr.conf       " ].
Proof.
  intros self w.
  assert (Forall token (sector_addresses sample_frr_args)) as Hs.
  { each ltac:(apply token_checked; reflexivity). }
  assert (token (backplane_assigned_addr sample_frr_args)) as Hb
    by (apply token_checked; reflexivity).
  assert (token (backplane_gw_ip sample_frr_args)) as Hg
    by (apply token_checked; reflexivity).
  assert (writable w (config self) (FRR.render sample_frr_args)) as Hw
    by (split; [|split]; vm_compute; reflexivity).
  split; [done|].
  exact (frr_set_then_get self sample_frr_args w Hs Hb Hg Hw).
Defined.

(** * Further properties of the scans *)

(** ** The firewall scan keeps the last match *)

Lemma iif_not_oif (l : str) :
  startswith l (lit "iif") = true -> startswith l (lit "oif") = false.
Proof.
  intros H. apply startswith_spec in H as [t ->]. reflexivity.
Qed.

Lemma nft_scan_last_match (ls : list str) :
  let st := fold_left NFTables.scan_line ls NFTables.start in
  NFTables.prerouting st = last_starting (lit "iif") (map strip ls)
  /\ NFTables.postrouting st = last_starting (lit "oif") (map strip ls).
Proof.
  cbv zeta. unfold last_starting.
  induction ls as [|l ls IH] using rev_ind; [done|].
  destruct IH as [IHpre IHpost].
  rewrite fold_left_app, map_app, !List.filter_app. cbn [fold_left map List.filter].
  unfold NFTables.scan_line at 1 3.
  destruct (startswith (strip l) (lit "iif")) eqn:Ei.
  - rewrite (iif_not_oif _ Ei). cbn [NFTables.prerouting NFTables.postrouting].
    by rewrite last_last, app_nil_r.
  - destruct (startswith (strip l) (lit "oif")) eqn:Eo;
      cbn [NFTables.prerouting NFTables.postrouting];
      by rewrite ?last_last, ?app_nil_r.
Qed.

(** The loop of [NFTables.get] keeps, of all lines of the text, the last one
    that starts with [iif] once stripped as prerouting rule and the last
    one that starts with [oif] as postrouting rule; a field is empty when
    no line matches. *)
Theorem nft_parse_last_match (text : str) :
  NFTables.prerouting (NFTables.parse text)
  = last_starting (lit "iif") (map strip (splitlines text))
  /\ NFTables.postrouting (NFTables.parse text)
     = last_starting (lit "oif") (map strip (splitlines text)).
Proof. apply nft_scan_last_match. Qed.

(** ** When the routing scan raises *)

Lemma getitem_short {A : Type} (l : list A) :
  length l < 3 -> getitem l 2 = Raise IndexError.
Proof.
  intros Hlen. change 2%Z with (Z.of_nat 2). rewrite getitem_nat.
  by rewrite lookup_ge_None_2 by lia.
Qed.

Lemma scan_line_incomplete st line :
  address_line_incomplete line -> FRR.scan_line st line = Raise IndexError.
Proof.
  intros [Hstart Hlen]. unfold FRR.scan_line. cbv zeta.
  by rewrite Hstart, getitem_short.
Qed.

Lemma address_line_incomplete_dec line :
  address_line_incomplete line
  \/ (startswith (strip line) (lit "ip address") = true ->
      3 <= length (split (strip line))).
Proof.
  unfold address_line_incomplete.
  destruct (startswith (strip line) (lit "ip address")); [|by right].
  destruct (decide (length (split (strip line)) < 3)); [by left|right; lia].
Qed.

Lemma scan_raises_iff ls : forall st,
  (FRR.scan st ls = Raise IndexError <-> Exists address_line_incomplete ls)
  /\ (forall e, FRR.scan st ls = Raise e -> e = IndexError).
Proof.
  induction ls as [|l ls IH]; intros st.
  - split; [split; [done|by inversion 1]|done].
  - cbn [FRR.scan]. destruct (address_line_incomplete_dec l) as [Hbad|Hgood].
    + rewrite scan_line_incomplete by done. cbn [mbind Result_bind].
      split; [split; [by left|done]|]. by intros e [= <-].
    + destruct (scan_line_total st l Hgood) as [st' ->]. cbn [mbind Result_bind].
      destruct (IH st') as [IHiff IHexn]. split; [|done].
      rewrite IHiff, Exists_cons. split; [by right|].
      intros [[Hstart Hlen]|?]; [|done]. specialize (Hgood Hstart). lia.
Qed.

(** The loop of [FRR.get] raises exactly when some line of the text is an
    address line without an address, and [IndexError] is the only exception
    it raises. *)
Theorem frr_parse_raises_iff (text : str) :
  (FRR.parse text = Raise IndexError
   <-> Exists address_line_incomplete (splitlines text))
  /\ (forall e, FRR.parse text = Raise e -> e = IndexError).
Proof. apply scan_raises_iff. Qed.

(** ** The gateway the routing scan reports *)

Lemma getitem_last_value {A : Type} (l : list A) (x d : A) :
  getitem l (-1) = Ok x -> List.last l d = x.
Proof.
  destruct l as [|a l]; [done|].
  destruct (exists_last (l:=a :: l) ltac:(done)) as (l' & y & ->).
  rewrite last_last. unfold getitem. cbv zeta.
  change (-1 <? 0)%Z with true. cbv iota.
  rewrite length_app. cbn [length].
  assert ((-1 + Z.of_nat (length l' + 1) <? 0)%Z = false) as -> by (apply Z.ltb_ge; lia).
  assert ((Z.of_nat (length l' + 1) <=? -1 + Z.of_nat (length l' + 1))%Z = false)
    as -> by (apply Z.leb_gt; lia).
  cbn [orb].
  replace (Z.to_nat (-1 + Z.of_nat (length l' + 1))) with (length l') by lia.
  rewrite list_lookup_middle by done. by intros [= ->].
Qed.

Lemma address_not_route (l : str) :
  startswith l (lit "ip address") = true ->
  startswith l (lit "ip route 0.0.0.0/0") = false.
Proof.
  intros H. apply startswith_spec in H as [t ->]. reflexivity.
Qed.

Lemma scan_line_gateway st line st' :
  FRR.scan_line st line = Ok st' ->
  FRR.backplane_gateway st' =
  if startswith (strip line) (lit "ip route 0.0.0.0/0")
  then route_gateway (strip line)
  else FRR.backplane_gateway st.
Proof.
  unfold FRR.scan_line. cbv zeta.
  set (st1 := if startswith (strip line) (lit "interface") then _ else st).
  assert (FRR.backplane_gateway st1 = FRR.backplane_gateway st) as <-
    by (subst st1; by destruct (startswith (strip line) (lit "interface"))).
  clearbody st1.
  destruct (startswith (strip line) (lit "ip address")) eqn:Ea.
  - rewrite (address_not_route _ Ea).
    destruct (getitem (split (strip line)) 2); cbn [mbind Result_bind]; [|done].
    by destruct (FRR.ip_type st1); intros [= <-].
  - destruct (startswith (strip line) (lit "ip route 0.0.0.0/0")); [|by intros [= <-]].
    destruct (getitem (split (strip line)) (-1)) as [gw|] eqn:Eg;
      cbn [mbind Result_bind]; [|done].
    intros [= <-]. cbn [FRR.backplane_gateway].
    symmetry. by apply getitem_last_value.
Qed.

Lemma scan_gateway ls : forall st st',
  FRR.scan st ls = Ok st' ->
  FRR.backplane_gateway st' =
  List.last
    (map route_gateway
       (List.filter (fun l => startswith l (lit "ip route 0.0.0.0/0")) (map strip ls)))
    (FRR.backplane_gateway st).
Proof.
  induction ls as [|l ls IH] using rev_ind; intros st st' Hscan.
  - by injection Hscan as <-.
  - rewrite scan_app in Hscan.
    destruct (FRR.scan st ls) as [st1|] eqn:E1; cbn [mbind Result_bind] in Hscan; [|done].
    cbn [FRR.scan] in Hscan.
    destruct (FRR.scan_line st1 l) as [st2|] eqn:E2; cbn [mbind Result_bind] in Hscan;
      [|done].
    injection Hscan as <-.
    rewrite (scan_line_gateway _ _ _ E2), (IH _ _ E1).
    rewrite map_app, List.filter_app, map_app. cbn [map List.filter].
    destruct (startswith (strip l) (lit "ip route 0.0.0.0/0")); cbn [map].
    + by rewrite last_last.
    + by rewrite app_nil_r.
Qed.

(** When the loop of [FRR.get] ends normally, the gateway it reports is the
    last word of the last line of the text that, stripped, starts with
    [ip route 0.0.0.0/0]; it is empty when there is no such line. *)
Theorem frr_parse_gateway (text : str) (st : FRR.Scan) :
  FRR.parse text = Ok st ->
  FRR.backplane_gateway st =
  List.last
    (map route_gateway
       (List.filter (fun l => startswith l (lit "ip route 0.0.0.0/0"))
          (map strip (splitlines text))))
    [].
Proof. apply scan_gateway. Qed.

(** ** One interface block *)

Lemma scan_line_interface st name :
  token name ->
  FRR.scan_line st (lit "interface " ++ name) =
  Ok (FRR.mkScan (FRR.sector_addrs st) (FRR.backplane_addr st)
        (FRR.backplane_gateway st)
        (if contains (lit "interface " ++ name) (lit "eth0")
         then FRR.sector else FRR.backplane)).
Proof.
  intros Hname. unfold FRR.scan_line.
  assert (strip (lit "interface " ++ name) = lit "interface " ++ name) as ->.
  { unfold strip.
    change (lstrip (lit "interface " ++ name)) with (lit "interface " ++ name).
    by apply rstrip_app_token. }
  change (startswith (lit "interface " ++ name) (lit "interface")) with true.
  change (startswith (lit "interface " ++ name) (lit "ip address")) with false.
  change (startswith (lit "interface " ++ name) (lit "ip route 0.0.0.0/0")) with false.
  done.
Qed.

Lemma last_cons {A : Type} (a d : A) (l : list A) :
  List.last (a :: l) d = List.last l a.
Proof.
  revert a d. induction l as [|b l IH]; intros a d; [done|].
  change (List.last (a :: b :: l) d) with (List.last (b :: l) d).
  by rewrite (IH b d), (IH b a).
Qed.

(** Outside a sector block every address line replaces the backplane
    address. *)
Lemma scan_other_block addrs : forall st,
  Forall token addrs ->
  FRR.ip_type st <> FRR.sector ->
  FRR.scan st (map (fun addr => lit " ip address " ++ addr) addrs) =
  Ok (FRR.mkScan (FRR.sector_addrs st) (List.last addrs (FRR.backplane_addr st))
        (FRR.backplane_gateway st)
        (match addrs with [] => FRR.ip_type st | _ => FRR.unset end)).
Proof.
  induction addrs as [|a addrs IH]; intros st Hall Hty.
  - cbn [map FRR.scan List.last]. by destruct st.
  - inversion Hall as [|? ? Ha Hall']; subst. cbn [map FRR.scan].
    rewrite scan_line_address by done. cbn [mbind Result_bind].
    rewrite last_cons.
    destruct (FRR.ip_type st) eqn:Et; [done| |];
      (rewrite IH by done;
       cbn [FRR.sector_addrs FRR.backplane_addr FRR.backplane_gateway FRR.ip_type];
       by destruct addrs).
Qed.

(** A text of one interface block: the interface line and address lines
    with whitespace-free, non-empty names.  When the interface line has
    [eth0] in it, anywhere, the loop of [FRR.get] collects every address in
    order as sector addresses; for any other interface it collects none and
    reports the last address of the block as backplane address. *)
Theorem frr_parse_one_block (name : str) (addrs : list str) :
  token name ->
  Forall token addrs ->
  FRR.parse
    (join [LF] ((lit "interface " ++ name)
                :: map (fun addr => lit " ip address " ++ addr) addrs ++ [[]])) =
  Ok (if contains (lit "interface " ++ name) (lit "eth0")
      then FRR.mkScan addrs [] [] FRR.sector
      else FRR.mkScan [] (List.last addrs []) []
             (match addrs with [] => FRR.backplane | _ => FRR.unset end)).
Proof.
  intros Hname Haddrs. unfold FRR.parse.
  rewrite (app_comm_cons _ _ (lit "interface " ++ name)), splitlines_join.
  2:{ apply Forall_cons_2.
      - apply Forall_app; split; [by apply one_line_checked|].
        apply spaceless_one_line, Hname.
      - apply Forall_forall. intros l Hl. apply list_elem_of_In, in_map_iff in Hl.
        destruct Hl as (a & <- & Ha). apply Forall_app; split; [by apply one_line_checked|].
        apply spaceless_one_line. rewrite Forall_forall in Haddrs.
        apply list_elem_of_In in Ha. by destruct (Haddrs a Ha). }
  cbn [FRR.scan]. rewrite scan_line_interface by done. cbn [mbind Result_bind].
  destruct (contains (lit "interface " ++ name) (lit "eth0")).
  - by rewrite scan_sector_block.
  - by rewrite scan_other_block.
Qed.

(** * Further properties of the table printer *)

Lemma print_table_as_table headers rows w :
  Forall (fun row => length row <= length headers) rows ->
  print_table headers rows w = (Ok tt, set_stdout (stdout w ++ table headers rows) w).
Proof.
  intros Hall. rewrite print_table_lines by done.
  cbv zeta. by rewrite foldl_grow_column_widths.
Qed.

(** [__print_table__] raises exactly when some row has more cells than
    there are headers; the exception is [IndexError] and nothing has been
    printed by then.  Otherwise it prints two lines and one more for every
    row. *)
Theorem print_table_raises_iff (headers : list str) (rows : list (list str)) (w : World) :
  (Exists (fun row => length headers < length row) rows
   <-> print_table headers rows w = (Raise IndexError, w))
  /\ (Forall (fun row => length row <= length headers) rows
      <-> exists lines,
            print_table headers rows w = (Ok tt, set_stdout (stdout w ++ lines) w)
            /\ length lines = 2 + length rows).
Proof.
  assert (Exists (fun row => length headers < length row) rows
          \/ Forall (fun row => length row <= length headers) rows) as Hcases.
  { destruct (Forall_Exists_dec (fun row : list str => length row <= length headers)
                (fun row => length headers < length row)
                (fun row => le_lt_dec (length row) (length headers)) rows);
      [by right|by left]. }
  assert (forall lines,
             print_table headers rows w <> (Raise IndexError, w)
             \/ print_table headers rows w
                <> (Ok tt, set_stdout (stdout w ++ lines) w)) as Hexcl.
  { intros lines. destruct (print_table headers rows w) as [[|] ?]; [by left|by right]. }
  split; split.
  - intros Hex. by apply print_table_long_row.
  - intros Hraise. destruct Hcases as [|Hall]; [done|].
    rewrite print_table_as_table in Hraise by done. done.
  - intros Hall. exists (table headers rows). split; [by apply print_table_as_table|].
    unfold table. cbn [length]. by rewrite length_map.
  - intros (lines & Hok & _). destruct Hcases as [Hex|]; [|done].
    apply (print_table_long_row headers rows w) in Hex as [_ Hraise].
    rewrite Hraise in Hok. done.
Qed.

Lemma ljust_length s w : length (ljust s w) = Nat.max (len s) w.
Proof. unfold ljust, len. rewrite length_app, length_replicate. lia. Qed.

Lemma join_length sep parts :
  length (join sep parts)
  = sum_list (map (@length char) parts) + length sep * (length parts - 1).
Proof.
  induction parts as [|p parts IH]; [simpl; lia|].
  destruct parts as [|p' parts].
  - cbn. lia.
  - change (join sep (p :: p' :: parts)) with (p ++ sep ++ join sep (p' :: parts)).
    rewrite !length_app, IH. cbn [map sum_list sum_list_with length].
    replace (S (S (length parts)) - 1) with (S (length parts)) by lia.
    replace (S (length parts) - 1) with (length parts) by lia.
    rewrite Nat.mul_succ_r. unfold id. lia.
Qed.

(** A row whose cells fit their columns fills every column exactly. *)
Lemma justified_widths row : forall widths,
  Forall2 (fun cell w => len cell <= w) row widths ->
  map (@length char) (zip_with ljust row widths) = widths.
Proof.
  induction row as [|cell row IH]; intros widths Hfit.
  - by inversion Hfit.
  - inversion Hfit as [|? w ? ws Hcell Hrest]; subst. cbn [zip_with map].
    rewrite ljust_length, IH by done. f_equal. lia.
Qed.

Lemma line_length row widths :
  Forall2 (fun cell w => len cell <= w) row widths ->
  length (join (lit "  ") (zip_with ljust row widths)) = line_width widths.
Proof.
  intros Hfit. rewrite join_length, justified_widths by done.
  unfold line_width. rewrite length_zip_with.
  rewrite (Forall2_length _ _ _ Hfit). cbn [length lit]. f_equal.
  change (length (lit "  ")) with 2. lia.
Qed.

(** The header and the cells of a row fit the columns of the table. *)
Lemma cells_fit headers rows row :
  (row = headers \/ row ∈ rows) ->
  length row = length headers ->
  Forall2 (fun cell w => len cell <= w) row (column_widths headers rows).
Proof.
  intros Hrow Hlen. apply Forall2_same_length_lookup. split.
  { unfold column_widths. by rewrite length_map, length_seq. }
  intros j cell w Hcell Hw.
  assert (j < length headers) as Hj
    by (rewrite <- Hlen; by eapply lookup_lt_Some).
  assert (w = column_width headers rows j) as ->.
  { unfold column_widths in Hw.
    rewrite <- (nth_lookup_Some _ _ 0 _ Hw).
    rewrite (nth_indep _ 0 (column_width headers rows 0))
      by (by rewrite length_map, length_seq).
    by rewrite (map_nth (column_width headers rows)), seq_nth. }
  unfold column_width. apply max_list_elem_of_le.
  rewrite <- (nth_lookup_Some _ _ [] _ Hcell).
  destruct Hrow as [->|Hin]; [by left|]. right.
  apply list_elem_of_In, in_map_iff. exists row. split; [done|].
  by apply list_elem_of_In.
Qed.

Lemma dashes_fit widths :
  Forall2 (fun cell w => len cell <= w) (map dashes widths) widths.
Proof.
  induction widths as [|w ws IH]; cbn [map]; constructor; [|done].
  unfold len, dashes. by rewrite length_replicate.
Qed.

(** For rows that each have as many cells as there are headers, every line
    [__print_table__] prints, the header, the separator and each row, has
    the same length: the column widths and two spaces between neighbouring
    columns. *)
Theorem print_table_aligned (headers : list str) (rows : list (list str)) (w : World) :
  Forall (fun row => length row = length headers) rows ->
  exists lines,
    print_table headers rows w = (Ok tt, set_stdout (stdout w ++ lines) w)
    /\ Forall (fun line => length line = line_width (column_widths headers rows)) lines.
Proof.
  intros Hall. exists (table headers rows). split.
  { apply print_table_as_table. eapply Forall_impl; [exact Hall|].
    intros r Hr. simpl in *. lia. }
  unfold table. apply Forall_cons_2; [|apply Forall_cons_2].
  - apply line_length, cells_fit; [by left|done].
  - rewrite <- zip_ljust_dashes. apply line_length, dashes_fit.
  - apply Forall_forall. intros line Hline.
    apply list_elem_of_In, in_map_iff in Hline. destruct Hline as (row & <- & Hrow).
    apply list_elem_of_In in Hrow. apply line_length, cells_fit; [by right|].
    rewrite Forall_forall in Hall. by apply Hall.
Qed.

(** * Further properties of the operations *)

Lemma read_after_pre_checks {A : Type} (self : Tool) (w : World) (text : str)
    (k : str -> M A) :
  files w !! config self = Some text ->
  (pre_checks self;; text ← read_text (config self); k text) w
  = k text (with_parents self w).
Proof.
  intros Hfile.
  rewrite (bind_ok _ _ _ _ _
             (pre_checks_present self w (path_exists_file _ _ _ Hfile))).
  unfold mbind at 1, M_bind at 1, read_text at 1. cbn [files set_dirs].
  by rewrite Hfile.
Qed.

(** [NFTables.get] on a configuration file that holds text ends normally,
    whatever the text: it prints the table of the two rules its scan found
    and of the path, five lines, and apart from the directories of the
    pre-flight check it changes nothing.  (The scan of [NFTables.get] has no
    index that can be out of range, unlike that of [FRR.get].) *)
Theorem nft_get_prints (self : Tool) (w : World) (text : str) :
  files w !! config self = Some text ->
  NFTables.get self w =
  (Ok tt,
   set_stdout
     (stdout w
      ++ table [lit "Field"; lit "Value"] (NFTables.rows self (NFTables.parse text)))
     (with_parents self w))
  /\ length (table [lit "Field"; lit "Value"]
              (NFTables.rows self (NFTables.parse text))) = 5.
Proof.
  intros Hfile. split; [|reflexivity]. unfold NFTables.get.
  rewrite (read_after_pre_checks self w text _ Hfile).
  rewrite print_table_as_table by each ltac:(simpl; lia).
  reflexivity.
Qed.

Lemma scan_complete_lines ls : forall st,
  Forall (fun line =>
            startswith (strip line) (lit "ip address") = true ->
            3 <= length (split (strip line))) ls ->
  exists st', FRR.scan st ls = Ok st'.
Proof.
  induction ls as [|line rest IH]; intros st Hall.
  - by exists st.
  - inversion Hall as [|? ? Hline Hrest]; subst.
    destruct (scan_line_total st line Hline) as [st' E].
    cbn [FRR.scan]. rewrite E. cbn [mbind Result_bind]. by apply IH.
Qed.

(** [FRR.get] on a configuration file that exists and whose address lines
    all carry an address ends normally: it prints the table of what its
    scan found, six lines, and apart from the directories of the pre-flight
    check it changes nothing. *)
Theorem frr_get_prints (self : Tool) (w : World) (text : str) :
  files w !! config self = Some text ->
  address_lines_complete text ->
  exists st,
    FRR.parse text = Ok st
    /\ FRR.get self w =
       (Ok tt,
        set_stdout (stdout w ++ table [lit "Field"; lit "Value"] (FRR.rows self st))
          (with_parents self w))
    /\ length (table [lit "Field"; lit "Value"] (FRR.rows self st)) = 6.
Proof.
  intros Hfile Hok.
  destruct (scan_complete_lines (splitlines text) FRR.start Hok) as [st Hst].
  exists st. split; [done|]. split; [|reflexivity]. unfold FRR.get.
  rewrite (read_after_pre_checks self w text _ Hfile).
  unfold mbind at 1, M_bind at 1, lift at 1. unfold FRR.parse. rewrite Hst.
  rewrite print_table_as_table by each ltac:(simpl; lia).
  reflexivity.
Qed.

(** [FRR.get] on a configuration file with an address line without an
    address ends with [IndexError]: no table is printed and nothing goes to
    stderr. *)
Theorem frr_get_raises (self : Tool) (w : World) (text : str) :
  files w !! config self = Some text ->
  Exists address_line_incomplete (splitlines text) ->
  FRR.get self w = (Raise IndexError, with_parents self w).
Proof.
  intros Hfile Hbad. unfold FRR.get.
  rewrite (read_after_pre_checks self w text _ Hfile).
  unfold mbind at 1, M_bind at 1, lift at 1.
  destruct (scan_raises_iff (splitlines text) FRR.start) as [[_ Hraise] _].
  unfold FRR.parse. by rewrite (Hraise Hbad).
Qed.

Lemma nft_set_world (self : Tool) (args : NFTablesSetArgs) (w : World) :
  writable w (config self) (NFTables.render args) ->
  NFTables.set self args w =
  (Ok tt,
   set_stdout
     (stdout w ++ [lit "Wrote nftables configuration to " ++ path_str (config self)])
     (set_files (<[config self := NFTables.render args]> (files w)) w)).
Proof.
  intros Hw. unfold NFTables.set.
  by rewrite (bind_ok _ _ _ _ _ (write_text_ok _ _ _ Hw)).
Qed.

(** ** The pre-flight check and the file system *)

Lemma pre_checks_world (self : Tool) (w : World) :
  (pre_checks self w).2 = w
  \/ exists e : list str,
       (pre_checks self w).2 = set_stderr (stderr w ++ e) (with_parents self w).
Proof.
  destruct (blocked w (parent (config self))) eqn:Hb.
  { left. by rewrite (pre_checks_blocked self w Hb). }
  right.
  assert (exists b, (path_exists (config self) w).1 = Ok b) as [[|] Hp]
    by by eexists.
  - rewrite (pre_checks_present self w Hp). exists []. cbn [snd].
    rewrite app_nil_r. unfold with_parents. by destruct w.
  - rewrite (pre_checks_absent self w Hp Hb). by eexists [_].
Qed.

Lemma above_parent (q p : Path) : above q p -> q `prefix_of` parent p.
Proof.
  intros [Hne [k ->]]. unfold parent.
  destruct k as [|x k] using rev_ind; [by rewrite app_nil_r in Hne|].
  rewrite app_assoc, removelast_last. by eexists.
Qed.

Lemma prefix_in_lineage (q p : Path) :
  q <> [] -> q `prefix_of` p -> q ∈ lineage p.
Proof.
  intros Hne [k ->]. unfold lineage. apply list_elem_of_In, in_map_iff.
  exists (length q). split; [by rewrite take_app_length|].
  apply in_seq. rewrite length_app. destruct q; [done|]. simpl. lia.
Qed.

Lemma lineage_prefix (q p : Path) : q ∈ lineage p -> q `prefix_of` p.
Proof.
  unfold lineage. intros Hq. apply list_elem_of_In, in_map_iff in Hq.
  destruct Hq as (n & <- & _). exists (drop n p). by rewrite take_drop.
Qed.

(** Where [mkdir] succeeds, no regular file has become a directory. *)
Lemma is_file_with_parents self w q :
  blocked w (parent (config self)) = false ->
  is_file w q = true -> is_file (with_parents self w) q = true.
Proof.
  intros Hfree Hfile. unfold is_file in *.
  apply andb_true_iff in Hfile as [Hentry Hnot]. apply negb_true_iff in Hnot.
  apply andb_true_iff. split; [done|]. apply negb_true_iff.
  apply not_true_is_false. intros Hdir.
  assert (is_dir w q = true -> False) as Hno by congruence.
  assert (q ∈ lineage (parent (config self)) -> False) as Hout.
  { intros Hin. unfold blocked in Hfree.
    assert (existsb (is_file w) (lineage (parent (config self))) = true) as Hex;
      [|congruence].
    apply existsb_exists. exists q. split; [by apply list_elem_of_In|].
    unfold is_file. by rewrite Hentry, Hnot. }
  apply is_dir_true in Hdir. unfold with_parents, entries in Hdir.
  cbn [dirs files set_dirs] in Hdir.
  destruct Hdir as [->|[Hin|(p' & Hin & Habove)]].
  - apply Hno, is_dir_true. by left.
  - apply elem_of_union in Hin as [Hin|Hin].
    + apply Hno, is_dir_true. right. by left.
    + apply Hout. by apply elem_of_list_to_set in Hin.
  - assert (p' ∈ entries w \/ p' ∈ lineage (parent (config self))) as [Hold|Hnew]
      by (unfold entries; set_solver).
    + apply Hno, is_dir_true. right. right. by exists p'.
    + apply Hout, prefix_in_lineage.
      * intros ->. apply Hno, is_dir_true. by left.
      * destruct Habove as [_ Hpre]. etrans; [exact Hpre|]. by apply lineage_prefix.
Qed.

(** [__pre_checks__], and so [get] and [restart] of both tools before
    anything else, has three outcomes.  Where a regular file stands in the
    way of the directory of the configuration file, it ends with the
    [OSError] of [mkdir] and has changed nothing.  Otherwise it ends
    normally or with exit code 1, and then, also when the file was found
    missing, every path above the configuration file is a directory; what
    was a directory still is one, what was a regular file still is one, and
    the text of the files, stdout and the list of commands are as they
    were. *)
Theorem pre_checks_makes_parents (self : Tool) (w : World) :
  (blocked w (parent (config self)) = true ->
   pre_checks self w = (Raise OSError, w))
  /\ (blocked w (parent (config self)) = false ->
      let w' := (pre_checks self w).2 in
      ((pre_checks self w).1 = Ok tt
       \/ (pre_checks self w).1 = Raise (SystemExit 1))
      /\ (forall q, above q (config self) -> is_dir w' q = true)
      /\ (forall q, is_dir w q = true -> is_dir w' q = true)
      /\ (forall q, is_file w q = true -> is_file w' q = true)
      /\ files w' = files w /\ stdout w' = stdout w /\ spawned w' = spawned w).
Proof.
  split; [apply pre_checks_blocked|]. intros Hfree. cbv zeta.
  assert (exists e r,
            pre_checks self w = (r, set_stderr (stderr w ++ e) (with_parents self w))
            /\ (r = Ok tt \/ r = Raise (SystemExit 1))) as (e & r & -> & Hr).
  { assert (exists b, (path_exists (config self) w).1 = Ok b) as [[|] Hp]
      by by eexists.
    - exists [], (Ok tt). split; [|by left].
      rewrite (pre_checks_present self w Hp), app_nil_r.
      unfold with_parents. by destruct w.
    - eexists [_], _. split; [exact (pre_checks_absent self w Hp Hfree)|by right]. }
  cbn [fst snd]. split; [done|].
  assert (forall q, is_dir (set_stderr (stderr w ++ e) (with_parents self w)) q
                    = is_dir (with_parents self w) q) as Hdir by done.
  assert (forall q, is_file (set_stderr (stderr w ++ e) (with_parents self w)) q
                    = is_file (with_parents self w) q) as Hfile by done.
  split; [|split; [|split; [|done]]].
  - intros q Habove. rewrite Hdir. apply is_dir_true.
    destruct q as [|x q]; [by left|]. right. left.
    unfold with_parents. cbn [dirs set_dirs]. apply elem_of_union. right.
    apply elem_of_list_to_set, prefix_in_lineage; [done|by apply above_parent].
  - intros q Hq. rewrite Hdir. by apply is_dir_with_parents.
  - intros q Hq. rewrite Hfile. by apply is_file_with_parents.
Qed.

(** ** Failures of the operating system *)

(** [restart] when the service command cannot be started: the exception of
    [subprocess.run] is no [CalledProcessError], [__run__] does not catch
    it, and [restart] ends with it, with no [ERROR: ] line and no
    confirmation. *)
Theorem restart_cannot_start (self : Tool) (w : World) :
  (path_exists (config self) w).1 = Ok true ->
  (returncode w [lit "systemctl"; lit "restart"; lit "frr"] = None ->
   FRR.restart self w =
   (Raise OSError,
    set_spawned (spawned w ++ [[lit "systemctl"; lit "restart"; lit "frr"]])
      (with_parents self w)))
  /\ (returncode w [lit "systemctl"; lit "restart"; lit "nftables"] = None ->
      NFTables.restart self w =
      (Raise OSError,
       set_spawned (spawned w ++ [[lit "systemctl"; lit "restart"; lit "nftables"]])
         (with_parents self w))).
Proof.
  intros Hpre. split; intros Hnone.
  - unfold FRR.restart.
    rewrite (bind_ok _ _ _ _ _ (pre_checks_present self w Hpre)).
    unfold mbind at 1, M_bind at 1, run, mbind, M_bind, subprocess_run.
    cbn [returncode set_dirs]. by rewrite Hnone.
  - unfold NFTables.restart.
    rewrite (bind_ok _ _ _ _ _ (pre_checks_present self w Hpre)).
    unfold mbind at 1, M_bind at 1, run, mbind, M_bind, subprocess_run.
    cbn [returncode set_dirs]. by rewrite Hnone.
Qed.

(** [get] of either tool on a path that exists but is no regular file, a
    directory: the pre-flight check passes, [read_text] raises, and [get]
    ends with that exception, nothing printed. *)
Theorem get_not_a_file (self : Tool) (w : World) :
  (path_exists (config self) w).1 = Ok true ->
  files w !! config self = None ->
  FRR.get self w = (Raise OSError, with_parents self w)
  /\ NFTables.get self w = (Raise OSError, with_parents self w).
Proof.
  intros Hpre Hnone. unfold FRR.get, NFTables.get.
  rewrite !(bind_ok _ _ _ _ _ (pre_checks_present self w Hpre)).
  assert (read_text (config self) (with_parents self w)
          = (Raise OSError, with_parents self w)) as Hread.
  { unfold read_text. cbn [files set_dirs with_parents]. by rewrite Hnone. }
  by rewrite !(bind_raise _ _ _ _ _ Hread).
Qed.

(** ** The commands as root *)

Lemma init_root (path : Path) (w : World) :
  euid w = 0%Z -> init path w = (Ok (mkTool path), w).
Proof.
  intros Huid. unfold init, ensure_root, mbind, M_bind, geteuid.
  by rewrite Huid.
Qed.

(** As root [main] runs the method of the tool it was asked for, the
    routing tool on [/etc/frr/frr.conf] and the firewall tool on
    [/etc/nftables.conf]. *)
Lemma main_root (args : Command) (w : World) :
  euid w = 0%Z ->
  main args w =
  match args with
  | frr_set a => FRR.set (mkTool frr_conf) a w
  | frr_get => FRR.get (mkTool frr_conf) w
  | frr_restart => FRR.restart (mkTool frr_conf) w
  | nftables_set a => NFTables.set (mkTool nftables_conf) a w
  | nftables_get => NFTables.get (mkTool nftables_conf) w
  | nftables_restart => NFTables.restart (mkTool nftables_conf) w
  end.
Proof.
  intros Huid. unfold main.
  rewrite (bind_ok _ _ _ _ _ (init_root frr_conf w Huid)).
  rewrite (bind_ok _ _ _ _ _ (init_root nftables_conf w Huid)).
  by destruct args.
Qed.

Lemma write_text_refused (p : Path) (text : str) (w : World) :
  is_dir w p = true \/ is_dir w (parent p) = false ->
  write_text p text w = (Raise OSError, w).
Proof.
  intros [Hp|Hparent]; unfold write_text; [by rewrite Hp|].
  rewrite Hparent. by destruct (is_dir w p).
Qed.

Lemma write_text_files (p q : Path) (text : str) (w : World) :
  q <> p -> files (write_text p text w).2 !! q = files w !! q.
Proof.
  intros Hne. unfold write_text.
  destruct (is_dir w p); [done|]. destruct (negb (is_dir w (parent p))); [done|].
  destruct (forallb (encodable w) text); cbn [snd files set_files];
    by apply lookup_insert_ne.
Qed.

Lemma set_files_elsewhere {A : Type} (p q : Path) (text : str) (k : unit -> M A)
    (w : World) :
  q <> p ->
  (forall u, keeps (fun w => files w !! q) (k u)) ->
  files ((write_text p text ≫= k) w).2 !! q = files w !! q.
Proof.
  intros Hne Hk. unfold mbind, M_bind.
  pose proof (write_text_files p q text w Hne) as Hw.
  destruct (write_text p text w) as [[[]|e] w1]; cbn [snd] in *; [|done].
  by rewrite (Hk tt w1).
Qed.

(** The [set] commands as root.  Where the configuration file can be
    written (its path is no directory, the path above it is one, and the
    text can be encoded), the command ends normally, replaces the file by the
    text rendered from the arguments and prints one line that names the
    file; it makes no directory, writes nothing to stderr and runs no
    command, and the file need not exist before.  Where the path is a
    directory or the path above it is none, as [/etc/frr] on a system
    without the routing daemon, the command ends with the [OSError] of
    [write_text], nothing written and nothing printed.  However the command
    ends, the file of the other tool is as it was. *)
Theorem main_set_as_root (w : World) (a : FrrSetArgs) (n : NFTablesSetArgs) :
  euid w = 0%Z ->
  (writable w frr_conf (FRR.render a) ->
   main (frr_set a) w =
   (Ok tt,
    set_stdout (stdout w ++ [lit "Wrote FRR configuration to /etc/frr/frr.conf"])
      (set_files (<[frr_conf := FRR.render a]> (files w)) w)))
  /\ (writable w nftables_conf (NFTables.render n) ->
      main (nftables_set n) w =
      (Ok tt,
       set_stdout
         (stdout w ++ [lit "Wrote nftables configuration to /etc/nftables.conf"])
         (set_files (<[nftables_conf := NFTables.render n]> (files w)) w)))
  /\ (is_dir w frr_conf = true \/ is_dir w (parent frr_conf) = false ->
      main (frr_set a) w = (Raise OSError, w))
  /\ (is_dir w nftables_conf = true \/ is_dir w (parent nftables_conf) = false ->
      main (nftables_set n) w = (Raise OSError, w))
  /\ files (main (frr_set a) w).2 !! nftables_conf = files w !! nftables_conf
  /\ files (main (nftables_set n) w).2 !! frr_conf = files w !! frr_conf.
Proof.
  intros Huid. rewrite !main_root by done.
  assert (frr_conf <> nftables_conf) as Hne
    by (intros H; apply (f_equal length) in H; discriminate H).
  split; [intros Hw; by rewrite frr_set_world|].
  split; [intros Hw; by rewrite nft_set_world|].
  split; [intros Hno; unfold FRR.set;
          by rewrite (bind_raise _ _ _ _ _ (write_text_refused _ _ _ Hno))|].
  split; [intros Hno; unfold NFTables.set;
          by rewrite (bind_raise _ _ _ _ _ (write_text_refused _ _ _ Hno))|].
  split.
  - unfold FRR.set. apply set_files_elsewhere; [done|]. by intros _ w1.
  - unfold NFTables.set. apply set_files_elsewhere; [done|]. by intros _ w1.
Qed.

(** ** What the operations leave alone *)

Section Frame.

Context {X : Type} (f : World -> X).
Hypothesis f_stdout : forall o w, f (set_stdout o w) = f w.
Hypothesis f_stderr : forall e w, f (set_stderr e w) = f w.
Hypothesis f_dirs : forall d w, f (set_dirs d w) = f w.
Hypothesis f_spawned : forall c w, f (set_spawned c w) = f w.

Lemma keeps_ret {A : Type} (a : A) : keeps f (mret a).
Proof. by intros w. Qed.

Lemma keeps_bind {A B : Type} (m : M A) (k : A -> M B) :
  keeps f m -> (forall a, keeps f (k a)) -> keeps f (m ≫= k).
Proof.
  intros Hm Hk w. unfold mbind, M_bind. specialize (Hm w).
  destruct (m w) as [[a|e] w1]; cbn [snd] in *; [|done].
  by rewrite Hk.
Qed.

Lemma keeps_lift {A : Type} (r : Result A) : keeps f (lift r).
Proof. by intros w. Qed.

Lemma keeps_print s : keeps f (print s).
Proof. intros w. apply f_stdout. Qed.

Lemma keeps_die msg : keeps f (die msg).
Proof. intros w. rewrite die_exits. apply f_stderr. Qed.

Lemma keeps_pre_checks self : keeps f (pre_checks self).
Proof.
  intros w. destruct (pre_checks_world self w) as [->|[e ->]]; [done|].
  unfold with_parents. by rewrite f_stderr, f_dirs.
Qed.

Lemma keeps_read_text path : keeps f (read_text path).
Proof. intros w. unfold read_text. by destruct (files w !! path). Qed.

Lemma keeps_print_rows col_widths rows : keeps f (print_rows col_widths rows).
Proof.
  induction rows as [|row rows IH]; [apply keeps_ret|].
  cbn [print_rows]. apply keeps_bind; [apply keeps_lift|]. intros line.
  apply keeps_bind; [apply keeps_print|]. by intros _.
Qed.

Lemma keeps_print_table headers rows : keeps f (print_table headers rows).
Proof.
  unfold print_table.
  repeat (apply keeps_bind; [first [apply keeps_lift | apply keeps_print]|]; intros ?).
  apply keeps_print_rows.
Qed.

Lemma keeps_frr_get self : keeps f (FRR.get self).
Proof.
  unfold FRR.get. apply keeps_bind; [apply keeps_pre_checks|]. intros _.
  apply keeps_bind; [apply keeps_read_text|]. intros text.
  apply keeps_bind; [apply keeps_lift|]. intros st. apply keeps_print_table.
Qed.

Lemma keeps_nft_get self : keeps f (NFTables.get self).
Proof.
  unfold NFTables.get. apply keeps_bind; [apply keeps_pre_checks|]. intros _.
  apply keeps_bind; [apply keeps_read_text|]. intros text. apply keeps_print_table.
Qed.

Lemma keeps_run cmd : keeps f (run cmd).
Proof.
  unfold run. apply keeps_bind.
  - intros w. unfold subprocess_run. destruct (returncode w cmd); apply f_spawned.
  - intros rc. destruct (negb (rc =? 0)%Z); [apply keeps_die|apply keeps_ret].
Qed.

Lemma keeps_restart self cmd msg :
  keeps f (pre_checks self;; run cmd;; print msg).
Proof.
  apply keeps_bind; [apply keeps_pre_checks|]. intros _.
  apply keeps_bind; [apply keeps_run|]. intros _. apply keeps_print.
Qed.

End Frame.

(** [get] of either tool, however it ends (with a table, with exit code 1
    or with an exception), has changed no file and run no command. *)
Theorem get_is_read_only (self : Tool) (w : World) :
  (files (FRR.get self w).2 = files w /\ spawned (FRR.get self w).2 = spawned w)
  /\ (files (NFTables.get self w).2 = files w
      /\ spawned (NFTables.get self w).2 = spawned w).
Proof.
  repeat split.
  - by apply (keeps_frr_get files).
  - by apply (keeps_frr_get spawned).
  - by apply (keeps_nft_get files).
  - by apply (keeps_nft_get spawned).
Qed.

(** [restart] of either tool, however it ends, has changed no file. *)
Theorem restart_writes_no_file (self : Tool) (w : World) :
  files (FRR.restart self w).2 = files w
  /\ files (NFTables.restart self w).2 = files w.
Proof.
  split; by apply (keeps_restart files).
Qed.

(** * Further properties of the rendered text *)

Lemma contains_refl s : contains s s = true.
Proof. apply contains_spec. exists [], []. by rewrite app_nil_r. Qed.

Lemma contains_trans s t u :
  contains s t = true -> contains t u = true -> contains s u = true.
Proof.
  rewrite !contains_spec. intros (a & b & ->) (c & d & ->).
  exists (a ++ c), (d ++ b). by rewrite <- !app_assoc.
Qed.

Lemma contains_join sep parts part :
  part ∈ parts -> contains (join sep parts) part = true.
Proof.
  intros Hin. apply contains_spec.
  induction parts as [|p parts IH]; [by inversion Hin|].
  destruct parts as [|p' parts].
  - apply list_elem_of_singleton in Hin as ->. exists [], []. by rewrite app_nil_r.
  - change (join sep (p :: p' :: parts)) with (p ++ sep ++ join sep (p' :: parts)).
    apply elem_of_cons in Hin as [->|Hin].
    + by exists [], (sep ++ join sep (p' :: parts)).
    + destruct (IH Hin) as (a & b & ->). exists (p ++ sep ++ a), b.
      by rewrite <- !app_assoc.
Qed.

(** A substring of a line of the text is a substring of the text. *)
Lemma contains_in_line sep parts part sub :
  part ∈ parts -> contains part sub = true ->
  contains (join sep parts) sub = true.
Proof.
  intros Hin Hsub. eapply contains_trans; [by apply contains_join|done].
Qed.

(** [contains (join sep parts) sub]: look in the line of index [n]. *)
Tactic Notation "line" integer(n) :=
  eapply contains_in_line;
  [do n apply list_elem_of_further; apply list_elem_of_here|].

(** [contains s sub]: [s] is [before ++ sub ++ after]. *)
Ltac within before after :=
  apply contains_spec; exists before, after;
  rewrite <- ?app_assoc, ?app_nil_r; reflexivity.

(** What [TestNFTables.test_set] asserts of the text written, for all
    arguments: the table and both chains are there, the destination NAT to
    the primary sector address, the match on the backplane network and the
    masquerade directive. *)
Theorem nft_render_contains (args : NFTablesSetArgs) :
  let text := NFTables.render args in
  contains text (lit "table ip nat {") = true
  /\ contains text (lit "chain prerouting {") = true
  /\ contains text (lit "dnat to " ++ primary_sector_ip args) = true
  /\ contains text (lit "ip daddr " ++ backplane_network args) = true
  /\ contains text (lit "chain postrouting {") = true
  /\ contains text (lit "masquerade") = true.
Proof.
  cbv zeta. unfold NFTables.render, NFTables.lines.
  split; [line 0; reflexivity|]. split; [line 1; reflexivity|].
  split.
  { line 3.
    within (lit "    iif " ++ [DQUOTE] ++ lit "eth1" ++ [DQUOTE] ++ lit " ip daddr "
            ++ backplane_network args ++ [SPACE])
           (@nil char). }
  split.
  { line 4.
    within (lit "    iif " ++ [DQUOTE] ++ lit "eth0" ++ [DQUOTE] ++ [SPACE])
           (lit " drop"). }
  split; [line 7; reflexivity|line 9; reflexivity].
Qed.

(** What [TestFRR.test_set] asserts of the text written, for all arguments:
    the defaults line and both interface lines are there, an address line
    for every sector address, the address line of the backplane and the
    default route to the gateway. *)
Theorem frr_render_contains (args : FrrSetArgs) :
  let text := FRR.render args in
  contains text (lit "frr defaults traditional") = true
  /\ contains text (lit "interface eth0") = true
  /\ Forall (fun addr => contains text (lit " ip address " ++ addr) = true)
       (sector_addresses args)
  /\ contains text (lit "interface eth1") = true
  /\ contains text (lit " ip address " ++ backplane_assigned_addr args) = true
  /\ contains text (lit "ip route 0.0.0.0/0 " ++ backplane_gw_ip args) = true.
Proof.
  cbv zeta. unfold FRR.render, FRR.lines. cbn [app].
  split; [line 0; reflexivity|]. split; [line 4; reflexivity|].
  split.
  { apply Forall_forall. intros addr Haddr. apply contains_join.
    do 5 apply list_elem_of_further. apply elem_of_app. left.
    apply list_elem_of_In, in_map_iff. exists addr. split; [done|].
    by apply list_elem_of_In. }
  split; [|split]; apply contains_join;
    do 5 apply list_elem_of_further; apply elem_of_app; right.
  - do 2 apply list_elem_of_further. apply list_elem_of_here.
  - do 3 apply list_elem_of_further. apply list_elem_of_here.
  - do 6 apply list_elem_of_further. apply list_elem_of_here.
Qed.

(** Two sets of routing arguments, each whitespace-free and non-empty in
    every field, that [set] renders to the same text are the same
    arguments: the file loses nothing of them. *)
Theorem frr_render_injective (args1 args2 : FrrSetArgs) :
  Forall token (sector_addresses args1) ->
  token (backplane_assigned_addr args1) ->
  token (backplane_gw_ip args1) ->
  Forall token (sector_addresses args2) ->
  token (backplane_assigned_addr args2) ->
  token (backplane_gw_ip args2) ->
  FRR.render args1 = FRR.render args2 ->
  args1 = args2.
Proof.
  intros Hs1 Hb1 Hg1 Hs2 Hb2 Hg2 Htext.
  pose proof (frr_parse_render_scan args1 Hs1 Hb1 Hg1) as H1.
  pose proof (frr_parse_render_scan args2 Hs2 Hb2 Hg2) as H2.
  rewrite Htext, H2 in H1. injection H1 as Es Eb Eg. clear Htext H2.
  destruct args1, args2.
  cbn [sector_addresses backplane_assigned_addr backplane_gw_ip] in Es, Eb, Eg.
  by rewrite Es, Eb, Eg.
Qed.

(** * The further properties on sample inputs *)

(** The gateway of the configuration of [test_get]. *)
Lemma frr_parse_gateway_sample :
  let st := FRR.mkScan [lit "10.1.1.1/24"; lit "10.1.2.1/24"]
              (lit "192.168.1.100/24") (lit "192.168.1.1") FRR.unset in
  FRR.parse sample_frr_config = Ok st
  /\ FRR.backplane_gateway st = lit "192.168.1.1".
Proof.
  intros st.
  assert (FRR.parse sample_frr_config = Ok st) as Hparse by reflexivity.
  split; [done|]. exact (frr_parse_gateway sample_frr_config st Hparse).
Defined.

(** A block of the backplane interface with two addresses. *)
Lemma frr_parse_one_block_sample :
  (token (lit "eth1")
   /\ Forall token [lit "192.168.1.100/24"; lit "192.168.1.101/24"])
  /\ FRR.parse
       (join [LF] [ lit "interface eth1"; lit " ip address 192.168.1.100/24";
                    lit " ip address 192.168.1.101/24"; [] ])
     = Ok (FRR.mkScan [] (lit "192.168.1.101/24") [] FRR.unset).
Proof.
  assert (token (lit "eth1")) as Hname by (apply token_checked; reflexivity).
  assert (Forall token [lit "192.168.1.100/24"; lit "192.168.1.101/24"]) as Haddrs.
  { each ltac:(apply token_checked; reflexivity). }
  split; [done|].
  exact (frr_parse_one_block (lit "eth1")
           [lit "192.168.1.100/24"; lit "192.168.1.101/24"] Hname Haddrs).
Defined.

(** The table of the specification's example is 43 characters wide. *)
Lemma print_table_aligned_sample :
  let headers := [lit "Field"; lit "Value"] in
  let rows := [ [lit "Sector Gateways"; lit "10.1.1.1/24, 10.1.2.1/24"];
                [lit "Backplane Address"; lit "192.168.1.100/24"] ] in
  Forall (fun row => length row = length headers) rows
  /\ exists lines,
       print_table headers rows (sample_world 0 ∅ 0)
       = (Ok tt, set_stdout ([] ++ lines) (sample_world 0 ∅ 0))
       /\ Forall (fun line => length line = 43) lines.
Proof.
  intros headers rows.
  assert (Forall (fun row => length row = length headers) rows) as Hall.
  { each ltac:(reflexivity). }
  split; [done|]. exact (print_table_aligned headers rows (sample_world 0 ∅ 0) Hall).
Defined.

(** [NFTables.get] on the text that [set] writes. *)
Lemma nft_get_prints_sample :
  let self := mkTool nftables_conf in
  let text := NFTables.render sample_nft_args in
  let w := sample_world 0 {[ nftables_conf := text ]} 0 in
  files w !! config self = Some text
  /\ NFTables.get self w =
     (Ok tt,
      set_stdout
        (stdout w
         ++ table [lit "Field"; lit "Value"] (NFTables.rows self (NFTables.parse text)))
        (with_parents self w))
  /\ length (table [lit "Field"; lit "Value"]
               (NFTables.rows self (NFTables.parse text))) = 5.
Proof.
  intros self text w.
  assert (files w !! config self = Some text) as Hfile by apply lookup_singleton_eq.
  split; [done|]. exact (nft_get_prints self w text Hfile).
Defined.

(** [FRR.get] on the configuration of [test_get]. *)
Lemma frr_get_prints_sample :
  let self := mkTool frr_conf in
  let w := sample_world 0 {[ frr_conf := sample_frr_config ]} 0 in
  (files w !! config self = Some sample_frr_config
   /\ address_lines_complete sample_frr_config)
  /\ exists st,
       FRR.parse sample_frr_config = Ok st
       /\ FRR.get self w =
          (Ok tt,
           set_stdout (stdout w ++ table [lit "Field"; lit "Value"] (FRR.rows self st))
             (with_parents self w))
       /\ length (table [lit "Field"; lit "Value"] (FRR.rows self st)) = 6.
Proof.
  intros self w.
  assert (files w !! config self = Some sample_frr_config) as Hfile
    by apply lookup_singleton_eq.
  assert (address_lines_complete sample_frr_config) as Hok
    by (apply address_lines_complete_checked; reflexivity).
  split; [done|]. exact (frr_get_prints self w sample_frr_config Hfile Hok).
Defined.

(** [FRR.get] on a file with the one line [ip address]. *)
Lemma frr_get_raises_sample :
  let self := mkTool frr_conf in
  let w := sample_world 0 {[ frr_conf := lit "ip address" ]} 0 in
  (files w !! config self = Some (lit "ip address")
   /\ Exists address_line_incomplete (splitlines (lit "ip address")))
  /\ FRR.get self w = (Raise IndexError, with_parents self w).
Proof.
  intros self w.
  assert (files w !! config self = Some (lit "ip address")) as Hfile
    by apply lookup_singleton_eq.
  assert (Exists address_line_incomplete (splitlines (lit "ip address"))) as Hbad.
  { apply Exists_cons_hd. split; [reflexivity|]. change (2 < 3). lia. }
  split; [done|]. exact (frr_get_raises self w (lit "ip address") Hfile Hbad).
Defined.

(** [restart] where [systemctl] cannot be started. *)
Lemma restart_cannot_start_sample :
  let self := mkTool frr_conf in
  let w := bare_world {[ frr_conf := sample_frr_config ]} ∅ in
  (path_exists (config self) w).1 = Ok true
  /\ (FRR.restart self w).1 = Raise OSError
  /\ stderr (FRR.restart self w).2 = []
  /\ stdout (FRR.restart self w).2 = [].
Proof.
  intros self w.
  assert ((path_exists (config self) w).1 = Ok true) as Hpre by (vm_compute; reflexivity).
  split; [done|].
  destruct (restart_cannot_start self w Hpre) as [Hfrr _].
  by rewrite (Hfrr eq_refl).
Defined.

(** [get] where the configuration path is a directory. *)
Lemma get_not_a_file_sample :
  let self := mkTool frr_conf in
  let w := bare_world ∅ {[ frr_conf ]} in
  ((path_exists (config self) w).1 = Ok true /\ files w !! config self = None)
  /\ FRR.get self w = (Raise OSError, with_parents self w)
  /\ NFTables.get self w = (Raise OSError, with_parents self w).
Proof.
  intros self w.
  assert ((path_exists (config self) w).1 = Ok true) as Hpre by (vm_compute; reflexivity).
  assert (files w !! config self = None) as Hnone by apply lookup_empty.
  split; [done|]. exact (get_not_a_file self w Hpre Hnone).
Defined.

(** The outcomes of the pre-flight check: on an empty file system, and
    where [/etc/frr] is a regular file. *)
Lemma pre_checks_makes_parents_sample :
  let self := mkTool frr_conf in
  let w := sample_world 0 ∅ 0 in
  let v := bare_world {[ parent frr_conf := lit "not a directory" ]} ∅ in
  (blocked w (parent (config self)) = false
   /\ blocked v (parent (config self)) = true)
  /\ pre_checks self v = (Raise OSError, v)
  /\ (pre_checks self w).1 = Raise (SystemExit 1)
  /\ is_dir (pre_checks self w).2 [lit "etc"] = true
  /\ is_dir (pre_checks self w).2 [lit "etc"; lit "frr"] = true
  /\ files (pre_checks self w).2 = ∅.
Proof.
  intros self w v.
  assert (blocked w (parent (config self)) = false) as Hfree
    by (vm_compute; reflexivity).
  assert (blocked v (parent (config self)) = true) as Hblocked
    by (vm_compute; reflexivity).
  split; [exact (conj Hfree Hblocked)|].
  split; [exact (proj1 (pre_checks_makes_parents self v) Hblocked)|].
  destruct (proj2 (pre_checks_makes_parents self w) Hfree)
    as (_ & Habove & _ & _ & Hfiles & _).
  split; [vm_compute; reflexivity|].
  split; [apply Habove; split; [done|by eexists [_; _]]|].
  split; [apply Habove; split; [done|by eexists [_]]|].
  exact Hfiles.
Defined.

(** The [set] commands as root where [/etc/frr] is a directory, and the
    routing command on an empty file system. *)
Lemma main_set_as_root_sample :
  let w := bare_world ∅ {[ parent frr_conf ]} in
  let v := sample_world 0 ∅ 0 in
  (euid w = 0%Z /\ euid v = 0%Z
   /\ writable w frr_conf (FRR.render sample_frr_args)
   /\ writable w nftables_conf (NFTables.render sample_nft_args)
   /\ is_dir v (parent frr_conf) = false)
  /\ main (frr_set sample_frr_args) w =
     (Ok tt,
      set_stdout [lit "Wrote FRR configuration to /etc/frr/frr.conf"]
        (set_files {[ frr_conf := FRR.render sample_frr_args ]} w))
  /\ main (nftables_set sample_nft_args) w =
     (Ok tt,
      set_stdout [lit "Wrote nftables configuration to /etc/nftables.conf"]
        (set_files {[ nftables_conf := NFTables.render sample_nft_args ]} w))
  /\ main (frr_set sample_frr_args) v = (Raise OSError, v).
Proof.
  intros w v.
  assert (euid w = 0%Z) as Hw by reflexivity.
  assert (euid v = 0%Z) as Hv by reflexivity.
  assert (writable w frr_conf (FRR.render sample_frr_args)) as Hfrr
    by (split; [|split]; vm_compute; reflexivity).
  assert (writable w nftables_conf (NFTables.render sample_nft_args)) as Hnft
    by (split; [|split]; vm_compute; reflexivity).
  assert (is_dir v (parent frr_conf) = false) as Hno by (vm_compute; reflexivity).
  split; [exact (conj Hw (conj Hv (conj Hfrr (conj Hnft Hno))))|].
  destruct (main_set_as_root w sample_frr_args sample_nft_args Hw)
    as (Hset1 & Hset2 & _).
  destruct (main_set_as_root v sample_frr_args sample_nft_args Hv)
    as (_ & _ & Hfail & _).
  rewrite (Hset1 Hfrr), (Hset2 Hnft), (Hfail (or_intror Hno)).
  repeat split; by rewrite insert_empty.
Defined.

(** The arguments of [test_set] against themselves. *)
Lemma frr_render_injective_sample :
  (Forall token (sector_addresses sample_frr_args)
   /\ token (backplane_assigned_addr sample_frr_args)
   /\ token (backplane_gw_ip sample_frr_args)
   /\ FRR.render sample_frr_args = FRR.render sample_frr_args)
  /\ sample_frr_args = sample_frr_args.
Proof.
  assert (Forall token (sector_addresses sample_frr_args)) as Hs.
  { each ltac:(apply token_checked; reflexivity). }
  assert (token (backplane_assigned_addr sample_frr_args)) as Hb
    by (apply token_checked; reflexivity).
  assert (token (backplane_gw_ip sample_frr_args)) as Hg
    by (apply token_checked; reflexivity).
  split; [done|].
  exact (frr_render_injective sample_frr_args sample_frr_args Hs Hb Hg Hs Hb Hg eq_refl).
Defined.
